(** * openni_fast_mesh: the capture/render hand-off of apps/src/openni_fast_mesh.cpp

    A shallow embedding of the one original piece of logic of the demo
    program: the class [OpenNIFastMesh] with its two callbacks [cloud_cb]
    (capture thread) and [viz_cb] (visualization thread), the frame-rate
    macro [FPS_CALC], and [usage]/[main].

    Everything that the program delegates to the rest of PCL (the clock, the
    triangulation routine, the viewer, the grabber) is either a parameter of
    the development or a small model with a doc comment saying so. *)

From Stdlib Require Import QArith.
From stdpp Require Import base numbers option list strings gmap.

Set Default Proof Using "Type".
Local Open Scope Z_scope.

(** ** Text written to [std::cout]

    The program only ever writes with chains of [<<]. One element of the
    chain is one token, so no number formatting has to be modelled. *)
Inductive Out (D : Type) : Type :=
  | OStr (s : string)          (* << "text" or << std::string *)
  | OUnsigned (n : Z)          (* << unsigned *)
  | OInt (n : Z)               (* << int *)
  | ODouble (d : D)            (* << double *)
  | OInfo (s : string)         (* PCL_INFO (text) *)
  | OEndl.                     (* << std::endl *)
Arguments OStr {D} s.
Arguments OUnsigned {D} n.
Arguments OInt {D} n.
Arguments ODouble {D} d.
Arguments OInfo {D} s.
Arguments OEndl {D}.

(** ** pcl::OrganizedFastMesh

    Modelled from the spec: pcl/surface/organized_fast_mesh.h is not part of
    the sources at hand. Section 6 describes the collaborator as one that
    "accepts a Frame and fixed configuration (max edge length, triangle pixel
    size, triangulation mode) and returns a renderable Mesh". The object is
    the record of what its setters store; the enumeration lists the
    triangulation modes of the class. *)
Inductive TriangulationType : Set :=
  | TRIANGLE_RIGHT_CUT
  | TRIANGLE_LEFT_CUT
  | TRIANGLE_ADAPTIVE_CUT
  | QUAD_MESH.

Record OrganizedFastMesh (Frame : Type) : Type := mkOFM {
  max_edge_length : Q;
  triangle_pixel_size : Z;
  triangulation_type : TriangulationType;
  input_ : option Frame
}.
Arguments mkOFM {Frame} _ _ _ _.
Arguments max_edge_length {Frame} _.
Arguments triangle_pixel_size {Frame} _.
Arguments triangulation_type {Frame} _.
Arguments input_ {Frame} _.

Definition setMaxEdgeLength {Frame} (a : Q) (ofm : OrganizedFastMesh Frame) :=
  mkOFM a (triangle_pixel_size ofm) (triangulation_type ofm) (input_ ofm).
Definition setTrianglePixelSize {Frame} (n : Z) (ofm : OrganizedFastMesh Frame) :=
  mkOFM (max_edge_length ofm) n (triangulation_type ofm) (input_ ofm).
Definition setTriangulationType {Frame} (t : TriangulationType)
    (ofm : OrganizedFastMesh Frame) :=
  mkOFM (max_edge_length ofm) (triangle_pixel_size ofm) t (input_ ofm).
Definition setInputCloud {Frame} (cloud : Frame) (ofm : OrganizedFastMesh Frame) :=
  mkOFM (max_edge_length ofm) (triangle_pixel_size ofm) (triangulation_type ofm)
        (Some cloud).

(** ** pcl::visualization::PCLVisualizer

    Modelled from the spec: the viewer class is not part of the sources at
    hand. Section 6 gives it "methods to add/remove a named renderable
    surface" and "a rendering-property setter (e.g., wireframe mode)". The
    viewer is the finite map from shape names to what is shown under that
    name; adding under a name that is taken is refused, as the call's boolean
    result (ignored by the program) suggests. *)
Inductive Representation : Set :=
  | PCL_VISUALIZER_REPRESENTATION_POINTS
  | PCL_VISUALIZER_REPRESENTATION_WIREFRAME
  | PCL_VISUALIZER_REPRESENTATION_SURFACE.

Record Shape (Mesh : Type) : Type := mkShape {
  polymesh : Mesh;
  representation : Representation
}.
Arguments mkShape {Mesh} _ _.
Arguments polymesh {Mesh} _.
Arguments representation {Mesh} _.

Definition removeShape {Mesh} (id : string) (viz : gmap string (Shape Mesh))
    : gmap string (Shape Mesh) :=
  delete id viz.

Definition addPolygonMesh {Mesh} (m : Mesh) (id : string)
    (viz : gmap string (Shape Mesh)) : gmap string (Shape Mesh) :=
  match viz !! id with
  | Some _ => viz
  | None => <[id := mkShape m PCL_VISUALIZER_REPRESENTATION_SURFACE]> viz
  end.

Definition setShapeRenderingProperties {Mesh} (value : Representation)
    (id : string) (viz : gmap string (Shape Mesh)) : gmap string (Shape Mesh) :=
  alter (fun sh => mkShape (polymesh sh) value) id viz.

(** ** FPS_CALC

    The two function-local statics of one expansion of the macro.
    [count] is an [unsigned]; [last] is initialised by [pcl::getTime ()] the
    first time control passes through the declaration, which is what
    [None] stands for. *)
Record FpsSite (D : Type) : Type := mkFps {
  count : Z;
  last : option D
}.
Arguments mkFps {D} _ _.
Arguments count {D} _.
Arguments last {D} _.

Definition UINT_MODULUS : Z := 2 ^ 32.

(** pcl::Vertices is a vector of point indices. *)
Definition Vertices : Type := list Z.

(** ** What the program takes from outside

    [Frame] is a captured cloud ([pcl::PointCloud<PointType>]), [Mesh] a
    [pcl::PolygonMesh], [Double] the C++ [double]. The class collects the
    operations on them that the program calls and that are defined
    elsewhere: subtraction, division and conversion from [unsigned] on
    doubles, a default-constructed [pcl::OrganizedFastMesh], a
    default-constructed [pcl::PolygonMesh], and [ofm.reconstruct]. *)
Class Externals (Frame Mesh Double : Type) : Type := mkExternals {
  dsub : Double -> Double -> Double;
  ddiv : Double -> Double -> Double;
  double_of_unsigned : Z -> Double;
  ofm_default : OrganizedFastMesh Frame;
  empty_mesh : Mesh;
  reconstruct : OrganizedFastMesh Frame -> Mesh
}.

Section App.

Context {Frame Mesh Double : Type} {ext : Externals Frame Mesh Double}.

Abbreviation Viewer := (gmap string (Shape Mesh)).

(** The line that the macro writes (line 60). *)
Definition rate_report (what : string) (count : Z) (now last : Double)
    : list (Out Double) :=
  [OStr "Average framerate("; OStr what; OStr "): ";
   ODouble (ddiv (double_of_unsigned count) (dsub now last));
   OStr " Hz"; OEndl].

(** [FPS_CALC (what)] at one call site, where [getTime] is the reading of
    the clock at that moment. The result is the new value of the statics
    with the text written. *)
Definition FPS_CALC (what : string) (getTime : Double) (st : FpsSite Double)
    : FpsSite Double * list (Out Double) :=
  let last0 := default getTime (last st) in
  let count1 := (count st + 1) mod UINT_MODULUS in
  if decide (count1 = 100) then
    let now := getTime in
    (mkFps 0 (Some now), rate_report what count1 now last0)
  else (mkFps count1 (Some last0), []).

(** Successive passes through one expansion of the macro, one clock reading
    per pass. *)
Fixpoint fps_calls (what : string) (times : list Double) (st : FpsSite Double)
    : FpsSite Double * list (Out Double) :=
  match times with
  | [] => (st, [])
  | t :: times' =>
      let '(st1, text1) := FPS_CALC what t st in
      let '(st2, text2) := fps_calls what times' st1 in
      (st2, text1 ++ text2)
  end.

(** The data members of [OpenNIFastMesh] that the callbacks share. A
    [boost::shared_ptr] is [None] when null. *)
Record OpenNIFastMesh : Type := mkApp {
  device_id_ : string;
  cloud_ : option Frame;
  vertices_ : option (list Vertices);
  mesh_ : option Mesh;
  new_cloud_ : bool
}.

(** The constructor. *)
Definition OpenNIFastMesh_new (device_id : string) : OpenNIFastMesh :=
  mkApp device_id None None None false.

(** The object together with what its callbacks act on: the viewer, the
    statics of the two expansions of [FPS_CALC], [std::cout], the number of
    one-millisecond sleeps of the visualization thread, and [shown], a
    history (newest first) of the meshes handed to the viewer. *)
Record World : Type := mkWorld {
  self : OpenNIFastMesh;
  viz : Viewer;
  fps_computation : FpsSite Double;
  fps_visualization : FpsSite Double;
  cout : list (Out Double);
  sleeps : nat;
  shown : list Mesh
}.

Definition set_self (a : OpenNIFastMesh) (w : World) : World :=
  mkWorld a (viz w) (fps_computation w) (fps_visualization w) (cout w)
          (sleeps w) (shown w).

Definition world0 (device_id : string) : World :=
  mkWorld (OpenNIFastMesh_new device_id) ∅ (mkFps 0 None) (mkFps 0 None) [] 0%nat [].

(** The triangulation object as lines 90-94 configure it. *)
Definition configured_ofm (cloud : Frame) : OrganizedFastMesh Frame :=
  setInputCloud cloud
    (setTriangulationType TRIANGLE_ADAPTIVE_CUT
      (setTrianglePixelSize 1
        (setMaxEdgeLength (3 # 2) ofm_default))).

(** [cloud_cb], run from the lock to its release without interference. *)
Definition cloud_cb (now : Double) (cloud : Frame) (w : World) : World :=
  let '(fps, text) := FPS_CALC "computation" now (fps_computation w) in
  let a := self w in
  let a1 :=
    if negb (new_cloud_ a) then
      mkApp (device_id_ a) (cloud_ a) (Some [])
            (Some (reconstruct (configured_ofm cloud))) (new_cloud_ a)
    else a in
  let a2 := mkApp (device_id_ a1) (Some cloud) (vertices_ a1) (mesh_ a1) true in
  mkWorld a2 (viz w) fps (fps_visualization w) (cout w ++ text) (sleeps w) (shown w).

(** [viz_cb], run without interference. [None] is the dereference of a
    null [mesh_] at line 121. *)
Definition viz_cb (now : Double) (w : World) : option World :=
  let a := self w in
  if negb (new_cloud_ a) then
    Some (mkWorld a (viz w) (fps_computation w) (fps_visualization w) (cout w)
                  (S (sleeps w)) (shown w))
  else
    (* temp_cloud.swap (cloud_): temp_cloud is a fresh null pointer *)
    let temp_cloud := cloud_ a in
    let a1 := mkApp (device_id_ a) None (vertices_ a) (mesh_ a) (new_cloud_ a) in
    let '(fps, text) := FPS_CALC "visualization" now (fps_visualization w) in
    match mesh_ a1 with
    | None => None
    | Some m =>
        let v := setShapeRenderingProperties PCL_VISUALIZER_REPRESENTATION_WIREFRAME
                   "surface" (addPolygonMesh m "surface" (removeShape "surface" (viz w))) in
        let a2 := mkApp (device_id_ a1) (cloud_ a1) (vertices_ a1) (mesh_ a1) false in
        Some (mkWorld a2 v (fps_computation w) fps (cout w ++ text) (sleeps w)
                      (m :: shown w))
    end.

(** ** Event-level runs

    A run of the program in which each callback executes from beginning to
    end before the next one starts: the grabber delivers a cloud
    ([Capture]) or the viewer calls the registered function ([Render]).
    Both carry the clock reading of that moment. *)
Inductive Event : Type :=
  | Capture (now : Double) (cloud : Frame)
  | Render (now : Double).

Definition handle (e : Event) (w : World) : option World :=
  match e with
  | Capture now cloud => Some (cloud_cb now cloud w)
  | Render now => viz_cb now w
  end.

Fixpoint run_events (es : list Event) (w : World) : option World :=
  match es with
  | [] => Some w
  | e :: es' =>
      match handle e w with
      | Some w' => run_events es' w'
      | None => None
      end
  end.

(** Whoever finds the flag set finds a mesh. *)
Definition pending_has_mesh (w : World) : Prop :=
  new_cloud_ (self w) = true -> is_Some (mesh_ (self w)).

(** A burst of deliveries. *)
Definition captures (cs : list (Double * Frame)) : list Event :=
  map (fun p => Capture (fst p) (snd p)) cs.

(** Calls of the viewer's function with nothing in between. *)
Definition renders (ts : list Double) : list Event := map Render ts.

(** ** Statement-level interleaving

    The two callbacks run on two threads. A thread's control state names the
    line of openni_fast_mesh.cpp it executes next, with the values of its
    locals ([cloud], [temp_cloud]). One step is one line (lines 90-95, the
    local triangulation object and its call, are one step). Memory is
    sequentially consistent. *)
Inductive Thread : Set := CaptureThread | VisualizationThread.

Inductive CapturePC : Type :=
  | CIdle                      (* not in cloud_cb; the next step enters at line 82 *)
  | C83 (cloud : Frame)
  | C85 (cloud : Frame)
  | C87 (cloud : Frame)
  | C88 (cloud : Frame)
  | C95 (cloud : Frame)        (* lines 90-95 *)
  | C98 (cloud : Frame)
  | C99 (cloud : Frame)
  | C100 (cloud : Frame).      (* end of scope: the lock is released *)

Inductive VizPC : Type :=
  | V105                       (* entry of viz_cb *)
  | V107                       (* sleep, then return *)
  | V111                       (* temp_cloud declared and swapped *)
  | V114 (temp_cloud : option Frame)
  | V115 (temp_cloud : option Frame)
  | V119 (temp_cloud : option Frame)
  | V121 (temp_cloud : option Frame)
  | V124 (temp_cloud : option Frame)
  | V125 (temp_cloud : option Frame)
  | V126 (temp_cloud : option Frame).  (* end of scope: the lock is released *)

Record Conc : Type := mkConc {
  world : World;
  mtx_ : option Thread;
  cpc : CapturePC;
  vpc : VizPC
}.

Definition conc0 (device_id : string) : Conc :=
  mkConc (world0 device_id) None CIdle V105.

(** What a step does besides changing the state: the shared data members it
    reads or writes, and whether it is a call that can suspend the thread
    (taking the mutex, sleeping). *)
Inductive Field : Set := F_cloud | F_vertices | F_mesh | F_new_cloud.

Inductive Access : Set := Rd (f : Field) | Wr (f : Field).

Record Label : Set := mkLabel {
  touched : list Access;
  blocking : bool
}.

Inductive Result : Type :=
  | Stepped (l : Label) (c : Conc)
  | Blocked                    (* the mutex is held by the other thread *)
  | Crashed.                   (* a null shared_ptr is dereferenced *)

Definition set_cloud (v : option Frame) (a : OpenNIFastMesh) :=
  mkApp (device_id_ a) v (vertices_ a) (mesh_ a) (new_cloud_ a).
Definition set_vertices (v : option (list Vertices)) (a : OpenNIFastMesh) :=
  mkApp (device_id_ a) (cloud_ a) v (mesh_ a) (new_cloud_ a).
Definition set_mesh (v : option Mesh) (a : OpenNIFastMesh) :=
  mkApp (device_id_ a) (cloud_ a) (vertices_ a) v (new_cloud_ a).
Definition set_new_cloud (v : bool) (a : OpenNIFastMesh) :=
  mkApp (device_id_ a) (cloud_ a) (vertices_ a) (mesh_ a) v.

(** One step of the capture thread; [delivered] is the cloud the grabber
    passes if the step is the entry into [cloud_cb]. *)
Definition capture_step (now : Double) (delivered : Frame) (c : Conc) : Result :=
  let w := world c in
  let a := self w in
  match cpc c with
  | CIdle =>
      match mtx_ c with
      | None => Stepped (mkLabel [] true)
                  (mkConc w (Some CaptureThread) (C83 delivered) (vpc c))
      | Some _ => Blocked
      end
  | C83 cloud =>
      let '(fps, text) := FPS_CALC "computation" now (fps_computation w) in
      Stepped (mkLabel [] false)
        (mkConc (mkWorld a (viz w) fps (fps_visualization w) (cout w ++ text)
                         (sleeps w) (shown w))
                (mtx_ c) (C85 cloud) (vpc c))
  | C85 cloud =>
      Stepped (mkLabel [Rd F_new_cloud] false)
        (mkConc w (mtx_ c) (if negb (new_cloud_ a) then C87 cloud else C98 cloud)
                (vpc c))
  | C87 cloud =>
      Stepped (mkLabel [Wr F_mesh] false)
        (mkConc (set_self (set_mesh (Some empty_mesh) a) w) (mtx_ c) (C88 cloud) (vpc c))
  | C88 cloud =>
      Stepped (mkLabel [Wr F_vertices] false)
        (mkConc (set_self (set_vertices (Some []) a) w) (mtx_ c) (C95 cloud) (vpc c))
  | C95 cloud =>
      match mesh_ a with
      | None => Crashed
      | Some _ =>
          Stepped (mkLabel [Rd F_mesh; Wr F_mesh] false)
            (mkConc (set_self (set_mesh (Some (reconstruct (configured_ofm cloud))) a) w)
                    (mtx_ c) (C98 cloud) (vpc c))
      end
  | C98 cloud =>
      Stepped (mkLabel [Wr F_cloud] false)
        (mkConc (set_self (set_cloud (Some cloud) a) w) (mtx_ c) (C99 cloud) (vpc c))
  | C99 cloud =>
      Stepped (mkLabel [Wr F_new_cloud] false)
        (mkConc (set_self (set_new_cloud true a) w) (mtx_ c) (C100 cloud) (vpc c))
  | C100 cloud =>
      Stepped (mkLabel [] false) (mkConc w None CIdle (vpc c))
  end.

(** One step of the visualization thread. *)
Definition viz_step (now : Double) (c : Conc) : Result :=
  let w := world c in
  let a := self w in
  match vpc c with
  | V105 =>
      Stepped (mkLabel [Rd F_new_cloud] false)
        (mkConc w (mtx_ c) (cpc c) (if negb (new_cloud_ a) then V107 else V111))
  | V107 =>
      Stepped (mkLabel [] true)
        (mkConc (mkWorld a (viz w) (fps_computation w) (fps_visualization w) (cout w)
                         (S (sleeps w)) (shown w))
                (mtx_ c) (cpc c) V105)
  | V111 =>
      Stepped (mkLabel [Rd F_cloud; Wr F_cloud] false)
        (mkConc (set_self (set_cloud None a) w) (mtx_ c) (cpc c) (V114 (cloud_ a)))
  | V114 temp_cloud =>
      match mtx_ c with
      | None => Stepped (mkLabel [] true)
                  (mkConc w (Some VisualizationThread) (cpc c) (V115 temp_cloud))
      | Some _ => Blocked
      end
  | V115 temp_cloud =>
      let '(fps, text) := FPS_CALC "visualization" now (fps_visualization w) in
      Stepped (mkLabel [] false)
        (mkConc (mkWorld a (viz w) (fps_computation w) fps (cout w ++ text)
                         (sleeps w) (shown w))
                (mtx_ c) (cpc c) (V119 temp_cloud))
  | V119 temp_cloud =>
      Stepped (mkLabel [] false)
        (mkConc (mkWorld a (removeShape "surface" (viz w)) (fps_computation w)
                         (fps_visualization w) (cout w) (sleeps w) (shown w))
                (mtx_ c) (cpc c) (V121 temp_cloud))
  | V121 temp_cloud =>
      match mesh_ a with
      | None => Crashed
      | Some m =>
          Stepped (mkLabel [Rd F_mesh] false)
            (mkConc (mkWorld a (addPolygonMesh m "surface" (viz w)) (fps_computation w)
                             (fps_visualization w) (cout w) (sleeps w) (m :: shown w))
                    (mtx_ c) (cpc c) (V124 temp_cloud))
      end
  | V124 temp_cloud =>
      Stepped (mkLabel [] false)
        (mkConc (mkWorld a (setShapeRenderingProperties
                              PCL_VISUALIZER_REPRESENTATION_WIREFRAME "surface" (viz w))
                         (fps_computation w) (fps_visualization w) (cout w) (sleeps w)
                         (shown w))
                (mtx_ c) (cpc c) (V125 temp_cloud))
  | V125 temp_cloud =>
      Stepped (mkLabel [Wr F_new_cloud] false)
        (mkConc (set_self (set_new_cloud false a) w) (mtx_ c) (cpc c) (V126 temp_cloud))
  | V126 temp_cloud =>
      Stepped (mkLabel [] false) (mkConc w None (cpc c) V105)
  end.

(** The scheduler picks a thread; [delivered] is used only by the capture
    thread's entry step. *)
Inductive Action : Type :=
  | ACapture (now : Double) (delivered : Frame)
  | AViz (now : Double).

Definition actor (a : Action) : Thread :=
  match a with ACapture _ _ => CaptureThread | AViz _ => VisualizationThread end.

Definition step (a : Action) (c : Conc) : Result :=
  match a with
  | ACapture now delivered => capture_step now delivered c
  | AViz now => viz_step now c
  end.

(** A schedule is run step by step; a blocked thread leaves the state as it
    is, a crash ends the run. *)
Fixpoint exec (sched : list Action) (c : Conc) : option Conc :=
  match sched with
  | [] => Some c
  | a :: sched' =>
      match step a c with
      | Stepped _ c' => exec sched' c'
      | Blocked => exec sched' c
      | Crashed => None
      end
  end.

(** [n] consecutive steps of one thread, the other one standing still. *)
Fixpoint capture_steps (n : nat) (now : Double) (cloud : Frame) (c : Conc)
    : option Conc :=
  match n with
  | O => Some c
  | S n' =>
      match capture_step now cloud c with
      | Stepped _ c' => capture_steps n' now cloud c'
      | _ => None
      end
  end.

Fixpoint viz_steps (n : nat) (now : Double) (c : Conc) : option Conc :=
  match n with
  | O => Some c
  | S n' =>
      match viz_step now c with
      | Stepped _ c' => viz_steps n' now c'
      | _ => None
      end
  end.

(** Where a thread stands relative to its critical section and to the
    lines that matter to the other thread. *)
Definition capture_holds (pc : CapturePC) : bool :=
  match pc with CIdle => false | _ => true end.

Definition viz_holds (pc : VizPC) : bool :=
  match pc with
  | V115 _ | V119 _ | V121 _ | V124 _ | V125 _ | V126 _ => true
  | _ => false
  end.

Definition owner (c : Conc) : option Thread :=
  if capture_holds (cpc c) then Some CaptureThread
  else if viz_holds (vpc c) then Some VisualizationThread
  else None.

(** Inside the branch of line 85 that rebuilds the mesh. *)
Definition rebuilding (pc : CapturePC) : bool :=
  match pc with C87 _ | C88 _ | C95 _ => true | _ => false end.

(** After [mesh_.reset], before [reconstruct]. *)
Definition mesh_allocated (pc : CapturePC) : bool :=
  match pc with C88 _ | C95 _ => true | _ => false end.

(** After the branch of line 85. *)
Definition past_branch (pc : CapturePC) : bool :=
  match pc with C98 _ | C99 _ | C100 _ => true | _ => false end.

(** [viz_cb] has seen the flag set and has not cleared it yet. *)
Definition viz_committed (pc : VizPC) : bool :=
  match pc with
  | V111 | V114 _ | V115 _ | V119 _ | V121 _ | V124 _ | V125 _ => true
  | _ => false
  end.

(** [viz_cb] has not swapped [cloud_] out in this call. *)
Definition viz_before_swap (pc : VizPC) : bool :=
  match pc with V105 | V107 | V111 => true | _ => false end.

(** [cloud_] is assigned and [new_cloud_] is about to be. *)
Definition frame_stored (pc : CapturePC) : bool :=
  match pc with C99 _ => true | _ => false end.

(** [viz_cb] has cleared the flag and still holds the mutex. *)
Definition flag_cleared (pc : VizPC) : bool :=
  match pc with V126 _ => true | _ => false end.

(** A mesh that [cloud_cb] reconstructed from some delivered cloud. *)
Definition reconstructed (o : option Mesh) : Prop :=
  exists g, o = Some (reconstruct (configured_ofm g)).

Definition reachable (c : Conc) : Prop :=
  exists device_id sched, exec sched (conc0 device_id) = Some c.

(** What holds in every state the two threads can reach together. *)
Record Inv (c : Conc) : Prop := mkInv {
  inv_mtx : mtx_ c = owner c;
  inv_excl : capture_holds (cpc c) = true -> viz_holds (vpc c) = true -> False;
  inv_rebuilding : rebuilding (cpc c) = true -> new_cloud_ (self (world c)) = false;
  inv_allocated : mesh_allocated (cpc c) = true -> is_Some (mesh_ (self (world c)));
  inv_committed : viz_committed (vpc c) = true -> new_cloud_ (self (world c)) = true;
  inv_cleared : flag_cleared (vpc c) = true -> new_cloud_ (self (world c)) = false;
  inv_mesh : new_cloud_ (self (world c)) = true \/ past_branch (cpc c) = true ->
             reconstructed (mesh_ (self (world c)));
  inv_cloud : new_cloud_ (self (world c)) = true \/ frame_stored (cpc c) = true ->
              viz_before_swap (vpc c) = true ->
              is_Some (cloud_ (self (world c)))
}.

(** ** Measures of a run *)

(** The number of lines of a text: its [std::endl] tokens. *)
Fixpoint endls (text : list (Out Double)) : nat :=
  match text with
  | [] => O
  | OEndl :: text' => S (endls text')
  | _ :: text' => endls text'
  end.

(** The clouds delivered in a run of events, oldest first. *)
Fixpoint captured (es : list Event) : list Frame :=
  match es with
  | [] => []
  | Capture _ cloud :: es' => cloud :: captured es'
  | Render _ :: es' => captured es'
  end.

(** The clouds the grabber holds out along a schedule, oldest first. A cloud
    is taken only by the step that enters [cloud_cb]. *)
Fixpoint offered (sched : list Action) : list Frame :=
  match sched with
  | [] => []
  | ACapture _ cloud :: sched' => cloud :: offered sched'
  | AViz _ :: sched' => offered sched'
  end.

(** The cloud that a thread carries in its locals. *)
Definition capture_local (pc : CapturePC) : option Frame :=
  match pc with
  | CIdle => None
  | C83 f | C85 f | C87 f | C88 f | C95 f | C98 f | C99 f | C100 f => Some f
  end.

Definition viz_local (pc : VizPC) : option Frame :=
  match pc with
  | V105 | V107 | V111 => None
  | V114 t | V115 t | V119 t | V121 t | V124 t | V125 t | V126 t => t
  end.

(** Where the data in a state come from, given the clouds [D] held out so
    far: every cloud in a local or in the slot is one of them, the mesh that
    counts is reconstructed from one of them, and so is every mesh the
    viewer was given. *)
Definition from_offered (D : list Frame) (m : Mesh) : Prop :=
  exists g, In g D /\ m = reconstruct (configured_ofm g).

Record Provenance (D : list Frame) (c : Conc) : Prop := mkProvenance {
  prov_capture : forall f, capture_local (cpc c) = Some f -> In f D;
  prov_viz : forall f, viz_local (vpc c) = Some f -> In f D;
  prov_cloud : forall f, cloud_ (self (world c)) = Some f -> In f D;
  prov_mesh : new_cloud_ (self (world c)) = true \/ past_branch (cpc c) = true ->
              exists m, mesh_ (self (world c)) = Some m /\ from_offered D m;
  prov_shown : forall m, In m (shown (world c)) -> from_offered D m
}.

(** [cloud_cb] has set the flag and still holds the mutex. *)
Definition flag_raised (pc : CapturePC) : bool :=
  match pc with C100 _ => true | _ => false end.

(** What a state still promises to show: one mesh if [cloud_cb] is under
    way and has not raised the flag yet, one if the flag is up and the
    current call of [viz_cb], if any, has not passed line 121. *)
Definition in_flight (pc : CapturePC) : nat :=
  match pc with CIdle | C100 _ => 0 | _ => 1 end.

Definition before_show (pc : VizPC) : bool :=
  match pc with V124 _ | V125 _ | V126 _ => false | _ => true end.

Definition owed (c : Conc) : nat :=
  if new_cloud_ (self (world c)) && before_show (vpc c) then 1 else 0.

(** The number of times [cloud_cb] is entered along a schedule. *)
Definition enters (a : Action) (c : Conc) : nat :=
  match a, cpc c with
  | ACapture _ _, CIdle => 1
  | _, _ => 0
  end.

Fixpoint entries (sched : list Action) (c : Conc) : nat :=
  match sched with
  | [] => 0
  | a :: sched' =>
      match step a c with
      | Stepped _ c' => enters a c + entries sched' c'
      | Blocked => entries sched' c
      | Crashed => 0
      end
  end.

(** The clouds passed to [cloud_cb] along a schedule, oldest first: the
    cloud of a step of the capture thread counts only when that step
    enters [cloud_cb]. *)
Definition taken (a : Action) (c : Conc) : list Frame :=
  match a, cpc c with
  | ACapture _ cloud, CIdle => [cloud]
  | _, _ => []
  end.

Fixpoint passed (sched : list Action) (c : Conc) : list Frame :=
  match sched with
  | [] => []
  | a :: sched' =>
      match step a c with
      | Stepped _ c' => taken a c ++ passed sched' c'
      | Blocked => passed sched' c
      | Crashed => []
      end
  end.

(** [vertices_] is null or the empty vector. *)
Definition vertices_unused (c : Conc) : Prop :=
  vertices_ (self (world c)) = None \/ vertices_ (self (world c)) = Some [].

End App.

Arguments OpenNIFastMesh : clear implicits.
Arguments World : clear implicits.
Arguments Event : clear implicits.
Arguments CapturePC : clear implicits.
Arguments VizPC : clear implicits.
Arguments Conc : clear implicits.
Arguments Action : clear implicits.
Arguments Result : clear implicits.

(** ** usage and main *)

(** What [openni_wrapper::OpenNIDriver] reports about one connected device.
    [bus] and [address] are the values after the casts to [int]. *)
Record Device : Set := mkDevice {
  vendor_name : string;
  product_name : string;
  bus : Z;
  address : Z;
  serial_number : string
}.

Definition newline : string := String (Ascii.ascii_of_nat 10) EmptyString.

Section Main.

Context {Frame Mesh Double : Type} {ext : Externals Frame Mesh Double}.

(** The body of the loop of [usage] for one device. *)
Definition usage_device (deviceIdx : nat) (d : Device) : list (Out Double) :=
  [OStr "Device: "; OUnsigned ((Z.of_nat deviceIdx + 1) mod UINT_MODULUS);
   OStr ", vendor: "; OStr (vendor_name d);
   OStr ", product: "; OStr (product_name d);
   OStr ", connected: "; OInt (bus d); OStr " @ "; OInt (address d);
   OStr ", serial number: '"; OStr (serial_number d); OStr "'"; OEndl;
   OStr "device_id may be #1, #2, ... for the first second etc device in the list or";
   OEndl;
   OStr "                 bus@address for the device connected to a specific usb-bus / address combination (works only in Linux) or";
   OEndl;
   OStr "                 <serial-number> (only in Linux and for devices which provide serial numbers)";
   OEndl].

Definition usage (argv : list string) (driver : list Device) : list (Out Double) :=
  [OStr "usage: "; OStr (nth 0 argv EmptyString);
   OStr (" <device_id> <options>" +:+ newline +:+ newline)]
  ++ (if (0 <? length driver)%nat
      then concat (imap usage_device driver)
      else [OStr "No devices connected."; OEndl]).

(** The two instantiations of the class template. *)
Inductive PointType : Set := PointXYZRGB | PointXYZ.

(** What [main] finds outside: the connected devices, whether the grabber
    offers the colour callback, and what happens between [interface->start]
    and the moment the viewer is stopped. *)
Record Env : Type := mkEnv {
  driver : list Device;
  provides_rgb : bool;
  session : list (Event Frame Double)
}.

(** What a run of [main] leaves behind: the exit status, the text written,
    the device ids the grabbers were constructed with (in order), and the
    instantiation that ran with its final state. *)
Record Exit : Type := mkExit {
  status : Z;
  stdout : list (Out Double);
  grabbers : list string;
  ran : option (PointType * World Frame Mesh Double)
}.

(** [OpenNIFastMesh::run]: the grabber is constructed with [device_id_];
    the callbacks then run as the session says, until the viewer is
    stopped. The result is the device id with the final state. *)
Definition run (events : list (Event Frame Double)) (w : World Frame Mesh Double)
    : option (string * World Frame Mesh Double) :=
  match run_events events w with
  | Some w' => Some (device_id_ (self w), w')
  | None => None
  end.

Definition with_cout (text : list (Out Double)) (w : World Frame Mesh Double)
    : World Frame Mesh Double :=
  mkWorld (self w) (viz w) (fps_computation w) (fps_visualization w) text
          (sleeps w) (shown w).

(** [main]; [None] is a crash inside [run]. Exceptions thrown by the
    grabber, the triangulation or the viewer are not part of the model. *)
Definition main (argv : list string) (env : Env) : option Exit :=
  let argc := length argv in
  let arg := if (1 <? argc)%nat then nth 1 argv EmptyString else EmptyString in
  if (String.eqb arg "--help" || String.eqb arg "-h")%bool then
    Some (mkExit 1 (usage argv (driver env)) [] None)
  else
    let grabber := EmptyString in
    let '(mode, info) :=
      if provides_rgb env
      then (PointXYZRGB, OInfo ("PointXYZRGB mode enabled." +:+ newline))
      else (PointXYZ, OInfo ("PointXYZ mode enabled." +:+ newline)) in
    let v := with_cout [info] (world0 EmptyString) in
    match run (session env) v with
    | Some (device, w) => Some (mkExit 0 (cout w) [grabber; device] (Some (mode, w)))
    | None => None
    end.

End Main.

Arguments Env : clear implicits.
Arguments Exit : clear implicits.

(** ** A concrete choice of the outside

    Clouds are numbered, doubles are rationals, and a mesh is the
    triangulation object it was reconstructed from ([None] for the empty
    mesh), so that two meshes are equal exactly when they were built from
    the same configuration and the same cloud. The default-constructed
    triangulation object has the defaults of the class. *)
Definition provenance : Externals nat (option (OrganizedFastMesh nat)) Q :=
  mkExternals nat (option (OrganizedFastMesh nat)) Q
    Qminus Qdiv inject_Z (mkOFM 0%Q 1 QUAD_MESH None) None Some.

#[global] Existing Instance provenance.

(** * Properties *)

Section Properties.

Context {Frame Mesh Double : Type} {ext : Externals Frame Mesh Double}.

Local Abbreviation W := (World Frame Mesh Double).
Local Abbreviation WIREFRAME := PCL_VISUALIZER_REPRESENTATION_WIREFRAME.

Implicit Types (w : W) (now : Double) (cloud f : Frame) (m : Mesh).

(** ** The viewer and the triangulation object *)

Lemma configured_ofm_fixed f :
  configured_ofm f = mkOFM (3 # 2) 1 TRIANGLE_ADAPTIVE_CUT (Some f).
Proof. reflexivity. Qed.

Lemma surface_after_render m (v : gmap string (Shape Mesh)) :
  setShapeRenderingProperties WIREFRAME "surface"
    (addPolygonMesh m "surface" (removeShape "surface" v)) !! "surface"
  = Some (mkShape m WIREFRAME).
Proof.
  unfold setShapeRenderingProperties, addPolygonMesh, removeShape.
  rewrite lookup_delete_eq, lookup_alter_eq, lookup_insert_eq. reflexivity.
Qed.

(** ** The callbacks, event by event *)

Lemma FPS_CALC_cases what now (st : FpsSite Double) :
  FPS_CALC what now st
  = (if decide ((count st + 1) mod UINT_MODULUS = 100)
     then (mkFps 0 (Some now),
           rate_report what ((count st + 1) mod UINT_MODULUS) now
             (default now (last st)))
     else (mkFps ((count st + 1) mod UINT_MODULUS) (Some (default now (last st))), [])).
Proof. reflexivity. Qed.

Lemma cloud_cb_self now cloud w :
  self (cloud_cb now cloud w)
  = mkApp (device_id_ (self w)) (Some cloud)
      (if new_cloud_ (self w) then vertices_ (self w) else Some [])
      (if new_cloud_ (self w) then mesh_ (self w)
       else Some (reconstruct (configured_ofm cloud)))
      true.
Proof.
  unfold cloud_cb. destruct (FPS_CALC _ _ _) as [fps text].
  destruct (new_cloud_ (self w)); reflexivity.
Qed.

Lemma cloud_cb_frame now cloud w :
  viz (cloud_cb now cloud w) = viz w
  /\ shown (cloud_cb now cloud w) = shown w
  /\ sleeps (cloud_cb now cloud w) = sleeps w
  /\ fps_visualization (cloud_cb now cloud w) = fps_visualization w.
Proof.
  unfold cloud_cb. destruct (FPS_CALC _ _ _) as [fps text]. auto.
Qed.

Lemma viz_cb_idle now w :
  new_cloud_ (self w) = false ->
  viz_cb now w
  = Some (mkWorld (self w) (viz w) (fps_computation w) (fps_visualization w)
                  (cout w) (S (sleeps w)) (shown w)).
Proof. intros H. unfold viz_cb. rewrite H. reflexivity. Qed.

Lemma viz_cb_consume now w m :
  new_cloud_ (self w) = true ->
  mesh_ (self w) = Some m ->
  exists w',
    viz_cb now w = Some w'
    /\ self w' = mkApp (device_id_ (self w)) None (vertices_ (self w)) (Some m) false
    /\ viz w' = setShapeRenderingProperties WIREFRAME "surface"
                  (addPolygonMesh m "surface" (removeShape "surface" (viz w)))
    /\ shown w' = m :: shown w
    /\ sleeps w' = sleeps w
    /\ fps_computation w' = fps_computation w.
Proof.
  intros Hflag Hmesh. unfold viz_cb. rewrite Hflag. simpl.
  destruct (FPS_CALC _ _ _) as [fps text]. rewrite Hmesh.
  eexists. split; [reflexivity|]. simpl. auto 10.
Qed.

Lemma pending_has_mesh_world0 d : pending_has_mesh (world0 d : W).
Proof. intros H. discriminate H. Qed.

Lemma cloud_cb_keeps now cloud w :
  pending_has_mesh w -> pending_has_mesh (cloud_cb now cloud w).
Proof.
  intros Hw _. rewrite cloud_cb_self. simpl.
  destruct (new_cloud_ (self w)) eqn:E; [apply Hw; exact E | eexists; reflexivity].
Qed.

Lemma viz_cb_keeps now w :
  pending_has_mesh w ->
  exists w', viz_cb now w = Some w' /\ pending_has_mesh w'.
Proof.
  intros Hw. destruct (new_cloud_ (self w)) eqn:E.
  - destruct (Hw E) as [m Hm].
    destruct (viz_cb_consume now w m E Hm) as (w' & Hr & Hs & _).
    exists w'. split; [exact Hr|]. intros H. rewrite Hs in H. discriminate H.
  - rewrite (viz_cb_idle now w E). eexists. split; [reflexivity|].
    intros H. simpl in H. congruence.
Qed.

Lemma handle_keeps e w :
  pending_has_mesh w ->
  exists w', handle e w = Some w' /\ pending_has_mesh w'.
Proof.
  intros Hw. destruct e as [now cloud | now]; simpl.
  - eexists. split; [reflexivity | apply cloud_cb_keeps, Hw].
  - apply viz_cb_keeps, Hw.
Qed.

Lemma run_events_keeps es : forall w,
  pending_has_mesh w ->
  exists w', run_events es w = Some w' /\ pending_has_mesh w'.
Proof.
  induction es as [|e es IH]; intros w Hw; simpl.
  - eauto.
  - destruct (handle_keeps e w Hw) as (w1 & -> & H1). apply IH, H1.
Qed.

Lemma run_events_app es1 : forall es2 w,
  run_events (es1 ++ es2) w
  = match run_events es1 w with
    | Some w' => run_events es2 w'
    | None => None
    end.
Proof.
  induction es1 as [|e es1 IH]; intros es2 w; simpl; [reflexivity|].
  destruct (handle e w); [apply IH | reflexivity].
Qed.

Lemma last_cons {A} (l : list A) (a d : A) :
  List.last (a :: l) d = List.last l a.
Proof.
  revert a d. induction l as [|b l IH]; intros a d; [reflexivity|].
  change (List.last (b :: l) d = List.last (b :: l) a).
  rewrite (IH b d), (IH b a). reflexivity.
Qed.

(** Deliveries that find the flag set only replace [cloud_]. *)
Lemma captures_while_pending (cs : list (Double * Frame)) : forall w,
  new_cloud_ (self w) = true ->
  exists w',
    run_events (captures cs) w = Some w'
    /\ self w' = set_cloud (List.last (map (fun p => Some (snd p)) cs) (cloud_ (self w)))
                           (self w)
    /\ viz w' = viz w /\ shown w' = shown w /\ sleeps w' = sleeps w
    /\ fps_visualization w' = fps_visualization w.
Proof.
  induction cs as [|[t f] cs IH]; intros w Hflag.
  - exists w. simpl. destruct (self w) eqn:E. simpl in *. subst. auto 10.
  - simpl run_events.
    destruct (cloud_cb_frame t f w) as (Hv & Hs & Hz & Hf).
    destruct (IH (cloud_cb t f w)) as (w' & Hr & Hself & Hv' & Hs' & Hz' & Hf').
    { rewrite cloud_cb_self. reflexivity. }
    exists w'. split; [exact Hr|].
    rewrite Hself, Hv', Hs', Hz', Hf', Hv, Hs, Hz, Hf.
    split; [|auto].
    rewrite cloud_cb_self, Hflag. simpl map. rewrite last_cons.
    unfold set_cloud. simpl. rewrite Hflag. reflexivity.
Qed.

(** Calls of [viz_cb] that find the flag clear only sleep. *)
Lemma renders_while_idle (ts : list Double) : forall w,
  new_cloud_ (self w) = false ->
  exists w',
    run_events (renders ts) w = Some w'
    /\ self w' = self w /\ viz w' = viz w /\ shown w' = shown w
    /\ fps_computation w' = fps_computation w
    /\ fps_visualization w' = fps_visualization w
    /\ cout w' = cout w
    /\ sleeps w' = (length ts + sleeps w)%nat.
Proof.
  induction ts as [|t ts IH]; intros w Hflag.
  - exists w. simpl. auto 10.
  - simpl run_events. rewrite (viz_cb_idle t w Hflag).
    destruct (IH (mkWorld (self w) (viz w) (fps_computation w) (fps_visualization w)
                          (cout w) (S (sleeps w)) (shown w)) Hflag)
      as (w' & Hr & H1 & H2 & H3 & H4 & H5 & H6 & H7).
    exists w'. split; [exact Hr|]. simpl in *.
    rewrite H1, H2, H3, H4, H5, H6, H7. repeat split; try reflexivity. lia.
Qed.

(** ** Render with nothing pending *)

(** C6: a call of the render handler that finds PendingFlag false returns
    a state in which the shared Frame/Mesh/PendingFlag members, the
    viewer's shapes, the history of meshes handed to the viewer, both
    frame-rate counters and the text written are what they were; only
    the one-millisecond sleep is counted. *)
Theorem idle_render_changes_nothing now w :
  new_cloud_ (self w) = false ->
  exists w',
    viz_cb now w = Some w'
    /\ self w' = self w
    /\ viz w' = viz w
    /\ shown w' = shown w
    /\ fps_computation w' = fps_computation w
    /\ fps_visualization w' = fps_visualization w
    /\ cout w' = cout w
    /\ sleeps w' = S (sleeps w).
Proof.
  intros Hflag. rewrite (viz_cb_idle now w Hflag).
  eexists. split; [reflexivity|]. simpl. auto 10.
Qed.

(** ** Bursts of captures *)

(** C1 (as amended): when no pair is pending, after any burst of captures
    C1..Cn the slot holds the frame of Cn but the mesh of C1; the render
    that follows hands the mesh reconstructed from C1 to the viewer, which
    shows it as "surface" in wireframe, and a second render call finds
    nothing pending and leaves viewer and history alone. *)
Theorem burst_then_render_shows_first w t1 f1 (cs : list (Double * Frame)) now :
  new_cloud_ (self w) = false ->
  exists w1 w2,
    run_events (captures ((t1, f1) :: cs)) w = Some w1
    /\ cloud_ (self w1) = Some (List.last (map snd cs) f1)
    /\ mesh_ (self w1) = Some (reconstruct (configured_ofm f1))
    /\ run_events (captures ((t1, f1) :: cs) ++ [Render now]) w = Some w2
    /\ shown w2 = reconstruct (configured_ofm f1) :: shown w
    /\ viz w2 !! "surface" = Some (mkShape (reconstruct (configured_ofm f1)) WIREFRAME)
    /\ new_cloud_ (self w2) = false
    /\ forall now', exists w3,
          viz_cb now' w2 = Some w3 /\ viz w3 = viz w2 /\ shown w3 = shown w2.
Proof.
  intros Hflag.
  destruct (cloud_cb_frame t1 f1 w) as (Hv & Hs & _).
  destruct (captures_while_pending cs (cloud_cb t1 f1 w))
    as (w1 & Hr & Hself & Hv1 & Hs1 & _).
  { rewrite cloud_cb_self. reflexivity. }
  rewrite cloud_cb_self, Hflag in Hself. simpl in Hself.
  assert (Hm : mesh_ (self w1) = Some (reconstruct (configured_ofm f1)))
    by (rewrite Hself; reflexivity).
  assert (Hp : new_cloud_ (self w1) = true) by (rewrite Hself; reflexivity).
  destruct (viz_cb_consume now w1 _ Hp Hm) as (w2 & Hr2 & Hself2 & Hv2 & Hs2 & _).
  exists w1, w2. split; [exact Hr|].
  split.
  { rewrite Hself. simpl. clear. revert f1.
    induction cs as [|[t f] cs IH]; intros f1; [reflexivity|].
    simpl map. rewrite !last_cons. apply IH. }
  split; [exact Hm|].
  split.
  { rewrite run_events_app.
    change (run_events (captures ((t1, f1) :: cs)) w)
      with (run_events (captures cs) (cloud_cb t1 f1 w)).
    rewrite Hr. simpl. rewrite Hr2. reflexivity. }
  split; [rewrite Hs2, Hs1, Hs; reflexivity|].
  split; [rewrite Hv2; apply surface_after_render|].
  split; [rewrite Hself2; reflexivity|].
  intros now'.
  rewrite (viz_cb_idle now' w2) by (rewrite Hself2; reflexivity).
  eexists. split; [reflexivity|]. simpl. auto.
Qed.

(** ** One render between two captures *)

(** C3 (as amended): a render that directly follows a capture takes out
    exactly the frame that capture delivered, hands the viewer the mesh
    the slot holds at that moment, and leaves PendingFlag false and the
    frame slot empty. The mesh is the one reconstructed from that frame
    when the capture found nothing pending; when it found a pair pending
    the mesh is the older one it left in place. The capture that comes
    next reconstructs from its own frame. *)
Theorem render_between_captures w t f now t' f' :
  pending_has_mesh w ->
  exists m w2,
    cloud_ (self (cloud_cb t f w)) = Some f
    /\ mesh_ (self (cloud_cb t f w)) = Some m
    /\ viz_cb now (cloud_cb t f w) = Some w2
    /\ cloud_ (self w2) = None
    /\ new_cloud_ (self w2) = false
    /\ shown w2 = m :: shown w
    /\ viz w2 !! "surface" = Some (mkShape m WIREFRAME)
    /\ (new_cloud_ (self w) = false -> m = reconstruct (configured_ofm f))
    /\ (new_cloud_ (self w) = true -> mesh_ (self w) = Some m)
    /\ mesh_ (self (cloud_cb t' f' w2)) = Some (reconstruct (configured_ofm f')).
Proof.
  intros Hw.
  destruct (cloud_cb_frame t f w) as (Hv & Hs & _).
  assert (Hm : exists m, mesh_ (self (cloud_cb t f w)) = Some m
                         /\ (new_cloud_ (self w) = false ->
                             m = reconstruct (configured_ofm f))
                         /\ (new_cloud_ (self w) = true -> mesh_ (self w) = Some m)).
  { rewrite cloud_cb_self. simpl. destruct (new_cloud_ (self w)) eqn:E.
    - destruct (Hw E) as [m Hm]. exists m. rewrite Hm.
      split; [reflexivity|]. split; [discriminate | reflexivity].
    - eexists. split; [reflexivity|]. split; [reflexivity | discriminate]. }
  destruct Hm as (m & Hm & Hfresh & Hold).
  destruct (viz_cb_consume now (cloud_cb t f w) m) as (w2 & Hr & Hself & Hv2 & Hs2 & _).
  { rewrite cloud_cb_self. reflexivity. }
  { exact Hm. }
  exists m, w2.
  split; [rewrite cloud_cb_self; reflexivity|].
  split; [exact Hm|].
  split; [exact Hr|].
  split; [rewrite Hself; reflexivity|].
  split; [rewrite Hself; reflexivity|].
  split; [rewrite Hs2, Hs; reflexivity|].
  split; [rewrite Hv2; apply surface_after_render|].
  split; [exact Hfresh|].
  split; [exact Hold|].
  rewrite cloud_cb_self, Hself. reflexivity.
Qed.

(** ** One slot, no queue *)

(** C5 (as amended): a frame delivered while a pair is pending is not
    queued and is not dropped either: it replaces the stored frame, while
    the pending mesh, the flag, the viewer and the history stay as they
    are, so its own mesh is never computed. However many frames arrive
    that way, the slot holds one pair: the next render hands the viewer
    the one pending mesh and the render after it finds nothing. *)
Theorem capture_while_pending_overwrites_frame w now f m :
  new_cloud_ (self w) = true ->
  mesh_ (self w) = Some m ->
  self (cloud_cb now f w) = set_cloud (Some f) (self w)
  /\ viz (cloud_cb now f w) = viz w
  /\ shown (cloud_cb now f w) = shown w
  /\ forall (cs : list (Double * Frame)) t1 t2, exists w',
        run_events (captures cs ++ [Render t1; Render t2]) w = Some w'
        /\ shown w' = m :: shown w
        /\ viz w' !! "surface" = Some (mkShape m WIREFRAME)
        /\ cloud_ (self w') = None
        /\ new_cloud_ (self w') = false.
Proof.
  intros Hflag Hmesh.
  destruct (cloud_cb_frame now f w) as (Hv & Hs & _).
  split.
  { rewrite cloud_cb_self, Hflag. unfold set_cloud. rewrite Hflag. reflexivity. }
  split; [exact Hv|]. split; [exact Hs|].
  intros cs t1 t2.
  destruct (captures_while_pending cs w Hflag) as (w1 & Hr & Hself & Hv1 & Hs1 & _).
  destruct (viz_cb_consume t1 w1 m) as (w2 & Hr2 & Hself2 & Hv2 & Hs2 & _).
  { rewrite Hself. exact Hflag. }
  { rewrite Hself. exact Hmesh. }
  rewrite run_events_app, Hr. simpl. rewrite Hr2.
  rewrite (viz_cb_idle t2 w2) by (rewrite Hself2; reflexivity).
  eexists. split; [reflexivity|]. simpl.
  split; [rewrite Hs2, Hs1; reflexivity|].
  split; [rewrite Hv2; apply surface_after_render|].
  rewrite Hself2. auto.
Qed.

(** ** After a consuming render *)

(** Callback by callback, that is, when no capture runs while the render
    handler is inside a call: in every state that a run of capture and
    render events reaches with PendingFlag true, the render call returns,
    leaving the frame slot null and PendingFlag false; after it, and after
    any number of further render calls, the next capture stores the mesh
    reconstructed from its own frame. The same holds for the first capture
    of the program, however many render calls came before it. *)
Lemma consume_empties_slot :
  (forall d (es : list (Event Frame Double)) w now,
      run_events es (world0 d) = Some w ->
      new_cloud_ (self w) = true ->
      exists w',
        viz_cb now w = Some w'
        /\ cloud_ (self w') = None
        /\ new_cloud_ (self w') = false
        /\ forall (ts : list Double) t f, exists w'',
              run_events (renders ts) w' = Some w''
              /\ mesh_ (self (cloud_cb t f w'')) = Some (reconstruct (configured_ofm f)))
  /\ (forall d (ts : list Double) t f, exists w'',
        run_events (renders ts) (world0 d) = Some w''
        /\ mesh_ (self (cloud_cb t f w'')) = Some (reconstruct (configured_ofm f))).
Proof.
  assert (Hnext : forall w (ts : list Double) t f,
             new_cloud_ (self w) = false ->
             exists w'', run_events (renders ts) w = Some w''
                         /\ mesh_ (self (cloud_cb t f w''))
                            = Some (reconstruct (configured_ofm f))).
  { intros w ts t f Hflag.
    destruct (renders_while_idle ts w Hflag) as (w'' & Hr & Hself & _).
    exists w''. split; [exact Hr|].
    rewrite cloud_cb_self, Hself, Hflag. reflexivity. }
  split.
  - intros d es w now Hrun Hflag.
    destruct (run_events_keeps es (world0 d) (pending_has_mesh_world0 d))
      as (w0 & Hrun0 & Hinv).
    rewrite Hrun in Hrun0. injection Hrun0 as <-.
    destruct (Hinv Hflag) as [m Hm].
    destruct (viz_cb_consume now w m Hflag Hm) as (w' & Hr & Hself & _).
    exists w'. split; [exact Hr|].
    split; [rewrite Hself; reflexivity|].
    split; [rewrite Hself; reflexivity|].
    intros ts t f. apply Hnext. rewrite Hself. reflexivity.
  - intros d ts t f. apply Hnext. reflexivity.
Qed.

(** ** The frame-rate counter *)

Lemma fps_calls_app what (l1 : list Double) : forall l2 st,
  fps_calls what (l1 ++ l2) st
  = (fst (fps_calls what l2 (fst (fps_calls what l1 st))),
     snd (fps_calls what l1 st) ++ snd (fps_calls what l2 (fst (fps_calls what l1 st)))).
Proof.
  induction l1 as [|t l1 IH]; intros l2 st; simpl.
  - destruct (fps_calls what l2 st); reflexivity.
  - destruct (FPS_CALC what t st) as [st1 o1]. rewrite IH.
    destruct (fps_calls what l1 st1) as [st2 o2]. simpl.
    rewrite app_assoc. reflexivity.
Qed.

(** Below the hundredth pass nothing is written and [last] keeps the
    reading of the first pass. *)
Lemma fps_calls_silent what (times : list Double) : forall st,
  0 <= count st ->
  count st + Z.of_nat (length times) < 100 ->
  fps_calls what times st
  = (match times with
     | [] => st
     | t :: _ => mkFps (count st + Z.of_nat (length times)) (Some (default t (last st)))
     end, []).
Proof.
  induction times as [|t times IH]; intros st Hlo Hhi; [reflexivity|].
  cbn [fps_calls]. rewrite FPS_CALC_cases.
  cbn [length] in Hhi.
  assert (Hmod : (count st + 1) mod UINT_MODULUS = count st + 1).
  { apply Z.mod_small. unfold UINT_MODULUS. lia. }
  rewrite Hmod. destruct (decide (count st + 1 = 100)) as [E|_]; [lia|].
  rewrite IH by (simpl; lia). cbn [count last].
  destruct times as [|t' times]; cbn [length app]; f_equal; f_equal; lia.
Qed.

Lemma FPS_CALC_hundredth what now (st : FpsSite Double) :
  count st = 99 ->
  FPS_CALC what now st
  = (mkFps 0 (Some now), rate_report what 100 now (default now (last st))).
Proof.
  intros H. rewrite FPS_CALC_cases, H.
  change ((99 + 1) mod UINT_MODULUS) with 100.
  destruct (decide (100 = 100)); [reflexivity | congruence].
Qed.

(** The counter stays below one hundred. *)
Lemma FPS_CALC_range what now (st : FpsSite Double) :
  0 <= count st < 100 ->
  0 <= count (fst (FPS_CALC what now st)) < 100.
Proof.
  intros H. rewrite FPS_CALC_cases.
  assert (Hmod : (count st + 1) mod UINT_MODULUS = count st + 1).
  { apply Z.mod_small. unfold UINT_MODULUS. lia. }
  rewrite Hmod. destruct (decide (count st + 1 = 100)); cbn; lia.
Qed.

(** C8: at one call site whose counter is in range (as it always is, the
    counter starting at zero and returning to zero at one hundred), take
    one hundred consecutive passes. Those before the one that brings the
    counter to one hundred write nothing; that pass writes one report,
    the six tokens "Average framerate(", the label, "): ", the value, " Hz"
    and the end of line, where the value is the division of 100 (converted
    to double) by the difference between the clock reading of this pass and
    that of the previous report (or of the first pass when there was none),
    and resets the counter to zero; the remaining passes write nothing. So the hundred passes write
    exactly that one report. The two call sites have separate statics:
    a capture advances only the "computation" counter, a render that
    consumes only the "visualization" counter. *)
Theorem hundred_calls_one_report what (st : FpsSite Double)
    (pre : list Double) (ti : Double) (post : list Double) w now f :
  0 <= count st < 100 ->
  length pre = Z.to_nat (99 - count st) ->
  length post = Z.to_nat (count st) ->
  length (pre ++ ti :: post) = 100%nat
  /\ snd (fps_calls what pre st) = []
  /\ fps_calls what (pre ++ [ti]) st
     = (mkFps 0 (Some ti),
        [OStr "Average framerate("; OStr what; OStr "): ";
         ODouble (ddiv (double_of_unsigned 100)
                       (dsub ti (default (hd ti pre) (last st))));
         OStr " Hz"; OEndl])
  /\ fps_calls what (pre ++ ti :: post) st
     = (mkFps (count st) (Some ti),
        [OStr "Average framerate("; OStr what; OStr "): ";
         ODouble (ddiv (double_of_unsigned 100)
                       (dsub ti (default (hd ti pre) (last st))));
         OStr " Hz"; OEndl])
  /\ fps_computation (cloud_cb now f w)
     = fst (FPS_CALC "computation" now (fps_computation w))
  /\ fps_visualization (cloud_cb now f w) = fps_visualization w
  /\ (forall w', viz_cb now w = Some w' ->
        fps_computation w' = fps_computation w
        /\ fps_visualization w'
           = if new_cloud_ (self w)
             then fst (FPS_CALC "visualization" now (fps_visualization w))
             else fps_visualization w).
Proof.
  intros Hc Hpre Hpost.
  assert (Hsilent := fps_calls_silent what pre st ltac:(lia) ltac:(lia)).
  assert (Hmid : fps_calls what (pre ++ [ti]) st
                 = (mkFps 0 (Some ti),
                    rate_report what 100 ti (default (hd ti pre) (last st)))).
  { rewrite fps_calls_app, Hsilent. cbn [fst snd fps_calls].
    destruct pre as [|t pre].
    - cbn [length] in Hpre. rewrite FPS_CALC_hundredth by lia. reflexivity.
    - rewrite FPS_CALC_hundredth by (cbn [count length] in *; lia). reflexivity. }
  split; [rewrite length_app; cbn [length]; lia|].
  split; [rewrite Hsilent; reflexivity|].
  split; [exact Hmid|].
  split.
  { change (pre ++ ti :: post) with (pre ++ [ti] ++ post).
    rewrite app_assoc, fps_calls_app, Hmid. cbn [fst snd].
    rewrite fps_calls_silent by (cbn [count]; lia). cbn [fst snd count last].
    rewrite app_nil_r. destruct post as [|t post].
    - cbn [length] in Hpost. f_equal. f_equal. lia.
    - f_equal. f_equal. rewrite Hpost. lia. }
  split; [unfold cloud_cb; destruct (FPS_CALC _ _ _); reflexivity|].
  split; [apply cloud_cb_frame|].
  intros w'. unfold viz_cb. destruct (new_cloud_ (self w)); cbn [negb].
  - destruct (FPS_CALC _ _ _) as [fps text]. cbn [mesh_].
    destruct (mesh_ (self w)); [|discriminate].
    intros [= <-]. auto.
  - intros [= <-]. auto.
Qed.

(** ** The command line *)

Lemma main_help argv (env : Env Frame Double) :
  (1 < length argv)%nat ->
  nth 1 argv EmptyString = "--help" \/ nth 1 argv EmptyString = "-h" ->
  main argv env = Some (mkExit 1 (usage argv (driver env)) [] None).
Proof.
  intros Hlen Harg. unfold main.
  apply Nat.ltb_lt in Hlen. rewrite Hlen.
  destruct Harg as [-> | ->]; reflexivity.
Qed.

Lemma main_runs argv (env : Env Frame Double) :
  ((1 < length argv)%nat ->
   nth 1 argv EmptyString <> "--help" /\ nth 1 argv EmptyString <> "-h") ->
  main argv env
  = match run (session env)
            (with_cout [if provides_rgb env
                        then OInfo ("PointXYZRGB mode enabled." +:+ newline)
                        else OInfo ("PointXYZ mode enabled." +:+ newline)]
                       (world0 EmptyString)) with
    | Some (device, w) =>
        Some (mkExit 0 (cout w) [EmptyString; device]
                     (Some (if provides_rgb env then PointXYZRGB else PointXYZ, w)))
    | None => None
    end.
Proof.
  intros Harg. unfold main.
  assert (Hno : (String.eqb (if (1 <? length argv)%nat
                             then nth 1 argv EmptyString else EmptyString) "--help"
                 || String.eqb (if (1 <? length argv)%nat
                                then nth 1 argv EmptyString else EmptyString) "-h")%bool
                = false).
  { destruct (1 <? length argv)%nat eqn:E; [|reflexivity].
    apply Nat.ltb_lt in E. destruct (Harg E) as [H1 H2].
    apply String.eqb_neq in H1, H2. rewrite H1, H2. reflexivity. }
  rewrite Hno. destruct (provides_rgb env); reflexivity.
Qed.

Lemma run_total (es : list (Event Frame Double)) w :
  pending_has_mesh w ->
  exists w', run es w = Some (device_id_ (self w), w').
Proof.
  intros Hw. unfold run.
  destruct (run_events_keeps es w Hw) as (w' & -> & _). eauto.
Qed.

(** C7: with "--help" or "-h" as first argument, [main] runs nothing,
    returns 1, and writes the device usage information: the line
    "usage: <program> <device_id> <options>" followed by an empty line, and
    then either "No devices connected." or, for each connected device in
    turn, its number (counted from one), vendor, product, bus, address and
    serial number followed by the three lines that explain [device_id].
    With any other first argument it does what it does with no argument at
    all: both grabbers are constructed with the empty device id, the
    session runs to the end without a crash from the freshly constructed
    object, and [main] returns 0. *)
Theorem main_command_line (prog arg : string) (rest : list string)
    (env : Env Frame Double) :
  (arg = "--help" \/ arg = "-h" ->
   main (prog :: arg :: rest) env
   = Some (mkExit 1
       ([OStr "usage: "; OStr prog;
         OStr (" <device_id> <options>"
               +:+ String (Ascii.ascii_of_nat 10) (String (Ascii.ascii_of_nat 10) EmptyString))]
        ++ match driver env with
           | [] => [OStr "No devices connected."; OEndl]
           | _ :: _ =>
               concat (imap (fun (i : nat) (d : Device) =>
                 [OStr "Device: "; OUnsigned ((Z.of_nat i + 1) mod 2 ^ 32);
                  OStr ", vendor: "; OStr (vendor_name d);
                  OStr ", product: "; OStr (product_name d);
                  OStr ", connected: "; OInt (bus d); OStr " @ "; OInt (address d);
                  OStr ", serial number: '"; OStr (serial_number d); OStr "'"; OEndl;
                  OStr "device_id may be #1, #2, ... for the first second etc device in the list or";
                  OEndl;
                  OStr "                 bus@address for the device connected to a specific usb-bus / address combination (works only in Linux) or";
                  OEndl;
                  OStr "                 <serial-number> (only in Linux and for devices which provide serial numbers)";
                  OEndl]) (driver env))
           end)
       [] None))
  /\ (arg <> "--help" -> arg <> "-h" ->
      main (prog :: arg :: rest) env = main [prog] env)
  /\ exists w,
       run_events (session env)
         (mkWorld (mkApp EmptyString None None None false) ∅
                  (mkFps 0 None) (mkFps 0 None)
                  [OInfo ((if provides_rgb env then "PointXYZRGB mode enabled."
                           else "PointXYZ mode enabled.")
                          +:+ String (Ascii.ascii_of_nat 10) EmptyString)]
                  0%nat [])
       = Some w
       /\ main [prog] env
          = Some (mkExit 0 (cout w) [EmptyString; EmptyString]
                        (Some (if provides_rgb env then PointXYZRGB else PointXYZ, w))).
Proof.
  split; [|split].
  - intros Harg. rewrite main_help; [|simpl; lia | exact Harg].
    unfold usage. cbn [nth]. destruct (driver env); reflexivity.
  - intros H1 H2. rewrite !main_runs; [reflexivity | |].
    + simpl. lia.
    + intros _. split; assumption.
  - rewrite main_runs by (simpl; lia). unfold run.
    destruct (run_events_keeps (session env)
                (with_cout [if provides_rgb env
                            then OInfo ("PointXYZRGB mode enabled." +:+ newline)
                            else OInfo ("PointXYZ mode enabled." +:+ newline)]
                           (world0 EmptyString))) as (w & Hrun & _).
    { intros H. discriminate H. }
    rewrite Hrun. exists w. split; [|reflexivity].
    rewrite <- Hrun. destruct (provides_rgb env); reflexivity.
Qed.

(** ** The two threads, statement by statement *)

Local Abbreviation K := (Conc Frame Mesh Double).

Ltac inv_hyps :=
  repeat match goal with
    | H : exists _, _ |- _ => destruct H
    | H : _ \/ _ |- _ => destruct H
    | H : _ /\ _ |- _ => destruct H
    | H : false = true |- _ => discriminate H
    | H : true = false |- _ => discriminate H
    | H : true = true -> _ |- _ => specialize (H eq_refl)
    | H : false = true -> _ |- _ => clear H
    | H : true = true \/ _ -> _ |- _ => specialize (H (or_introl eq_refl))
    | H : _ \/ true = true -> _ |- _ => specialize (H (or_intror eq_refl))
    | H : false = true \/ false = true -> _ |- _ => clear H
    | H : is_Some None |- _ => destruct H; discriminate
    end.

Ltac inv_goal :=
  unfold owner, reconstructed in *; cbn in *; intros; inv_hyps;
  try discriminate; try congruence;
  try solve [ eauto | exfalso; eauto ].

Lemma Inv_conc0 d : Inv (conc0 d : K).
Proof. split; inv_goal. Qed.

Lemma capture_step_inv now delivered (c : K) l c' :
  Inv c -> capture_step now delivered c = Stepped l c' -> Inv c'.
Proof.
  destruct c as [[[d cl vs ms fl] vz f1 f2 co sl sh] mtx cp vp].
  intros [Hm He Hr Ha Hc Hz Hmesh Hcloud].
  unfold capture_step. cbn [world mtx_ cpc vpc self] in *.
  destruct cp as [|f|f|f|f|f|f|f|f].
  all: try (destruct mtx; [discriminate|]).
  all: try (destruct (FPS_CALC _ _ _) as [fps text]).
  all: try (destruct ms as [m0|]; [|discriminate]).
  all: try (intros E; injection E as <- <-; destruct fl, vp; split; inv_goal).
Qed.

Lemma viz_step_inv now (c : K) l c' :
  Inv c -> viz_step now c = Stepped l c' -> Inv c'.
Proof.
  destruct c as [[[d cl vs ms fl] vz f1 f2 co sl sh] mtx cp vp].
  intros [Hm He Hr Ha Hc Hz Hmesh Hcloud].
  unfold viz_step. cbn [world mtx_ cpc vpc self] in *.
  destruct vp as [| | |t|t|t|t|t|t|t].
  all: try (destruct mtx; [discriminate|]).
  all: try (destruct (FPS_CALC _ _ _) as [fps text]).
  all: try (destruct ms as [m0|]; [|discriminate]).
  all: try (intros E; injection E as <- <-; destruct fl, cp; split; inv_goal).
Qed.

Lemma step_inv a (c : K) l c' : Inv c -> step a c = Stepped l c' -> Inv c'.
Proof.
  destruct a as [now delivered | now]; simpl.
  - apply capture_step_inv.
  - apply viz_step_inv.
Qed.

(** No reachable step dereferences a null pointer. *)
Lemma step_no_crash a (c : K) : Inv c -> step a c <> Crashed.
Proof.
  destruct c as [[[d cl vs ms fl] vz f1 f2 co sl sh] mtx cp vp].
  intros [Hm He Hr Ha Hc Hz Hmesh Hcloud].
  destruct a as [now delivered | now]; simpl.
  - unfold capture_step. cbn [world mtx_ cpc vpc self] in *.
    destruct cp; try discriminate.
    + destruct mtx; discriminate.
    + destruct (FPS_CALC _ _ _); discriminate.
    + destruct ms; [discriminate|]. destruct Ha as [m Hm']; [reflexivity|].
      discriminate Hm'.
  - unfold viz_step. cbn [world mtx_ cpc vpc self] in *.
    destruct vp; try discriminate.
    + destruct mtx; discriminate.
    + destruct (FPS_CALC _ _ _); discriminate.
    + destruct ms; [discriminate|]. destruct Hmesh as [g Hg].
      * left. apply Hc. reflexivity.
      * discriminate Hg.
Qed.

Lemma exec_inv (sched : list (Action Frame Double)) : forall (c c' : K),
  Inv c -> exec sched c = Some c' -> Inv c'.
Proof.
  induction sched as [|a sched IH]; intros c c' Hc; simpl.
  - intros [= <-]. exact Hc.
  - destruct (step a c) as [l c1| |] eqn:E.
    + apply IH. eapply step_inv; eauto.
    + apply IH, Hc.
    + discriminate.
Qed.

Lemma exec_total (sched : list (Action Frame Double)) : forall (c : K),
  Inv c -> exists c', exec sched c = Some c'.
Proof.
  induction sched as [|a sched IH]; intros c Hc; simpl.
  - eauto.
  - destruct (step a c) as [l c1| |] eqn:E.
    + apply IH. eapply step_inv; eauto.
    + apply IH, Hc.
    + exfalso. exact (step_no_crash a c Hc E).
Qed.

Lemma reachable_inv (c : K) : reachable c -> Inv c.
Proof.
  intros (d & sched & H). exact (exec_inv sched (conc0 d) c (Inv_conc0 d) H).
Qed.

(** C4: in every state that the two threads reach by any interleaving of
    their statements, when the render handler is at its entry test and
    PendingFlag is true, [cloud_] is non-null and [mesh_] is a mesh that
    the capture handler reconstructed from a delivered frame. The same
    holds when the test has been passed and the swap is about to happen,
    the mesh that line 121 dereferences is such a mesh, and no step from
    a reachable state dereferences a null pointer. *)
Theorem pending_flag_means_pair (c : K) :
  reachable c ->
  (vpc c = V105 -> new_cloud_ (self (world c)) = true ->
   is_Some (cloud_ (self (world c))) /\ reconstructed (mesh_ (self (world c))))
  /\ (vpc c = V111 ->
      new_cloud_ (self (world c)) = true
      /\ is_Some (cloud_ (self (world c))) /\ reconstructed (mesh_ (self (world c))))
  /\ (forall t, vpc c = V121 t -> reconstructed (mesh_ (self (world c))))
  /\ (forall a, step a c <> Crashed).
Proof.
  intros Hreach. pose proof (reachable_inv c Hreach) as HI.
  destruct HI as [Hm He Hr Ha Hc Hz Hmesh Hcloud].
  split; [|split; [|split]].
  - intros Hpc Hflag. split.
    + apply Hcloud; [left; exact Hflag | rewrite Hpc; reflexivity].
    + apply Hmesh. left. exact Hflag.
  - intros Hpc.
    assert (Hflag : new_cloud_ (self (world c)) = true)
      by (apply Hc; rewrite Hpc; reflexivity).
    split; [exact Hflag|]. split.
    + apply Hcloud; [left; exact Hflag | rewrite Hpc; reflexivity].
    + apply Hmesh. left. exact Hflag.
  - intros t Hpc. apply Hmesh. left. apply Hc. rewrite Hpc. reflexivity.
  - intros a. apply step_no_crash. apply reachable_inv, Hreach.
Qed.

(** [viz_cb] as a run of the visualization thread: two steps when nothing is
    pending, nine when a pair is. *)
Lemma viz_cb_as_steps now (c : K) :
  vpc c = V105 ->
  mtx_ c = None ->
  (new_cloud_ (self (world c)) = true -> is_Some (mesh_ (self (world c)))) ->
  exists w',
    viz_cb now (world c) = Some w'
    /\ viz_steps (if new_cloud_ (self (world c)) then 9 else 2) now c
       = Some (mkConc w' None (cpc c) V105).
Proof.
  destruct c as [[[d cl vs ms fl] vz f1 f2 co sl sh] mtx cp vp].
  cbn [cpc mtx_ world self new_cloud_ mesh_ vpc]. intros -> -> Hmesh.
  unfold viz_cb, viz_steps, viz_step.
  cbn [world mtx_ cpc vpc self fps_visualization new_cloud_ mesh_].
  destruct fl; cbn [negb].
  - destruct (Hmesh eq_refl) as [m ->].
    destruct (FPS_CALC "visualization" now f2) as [fps text] eqn:E.
    cbn. rewrite ?E. cbn. eexists. split; reflexivity.
  - cbn. eexists. split; reflexivity.
Qed.

(** Runs of one thread are schedules, and a run of events is an
    interleaving in which the threads take turns callback by callback. *)
Lemma exec_app (s1 : list (Action Frame Double)) : forall s2 (c : K),
  exec (s1 ++ s2) c
  = match exec s1 c with
    | Some c' => exec s2 c'
    | None => None
    end.
Proof.
  induction s1 as [|a s1 IH]; intros s2 c; simpl; [reflexivity|].
  destruct (step a c); [apply IH | apply IH | reflexivity].
Qed.

Lemma exec_capture_steps n now f : forall (c c' : K),
  capture_steps n now f c = Some c' ->
  exec (repeat (ACapture now f) n) c = Some c'.
Proof.
  induction n as [|n IH]; intros c c'; simpl; [auto|].
  destruct (capture_step now f c); [apply IH | discriminate | discriminate].
Qed.

Lemma exec_viz_steps n now : forall (c c' : K),
  viz_steps n now c = Some c' ->
  exec (repeat (AViz now) n) c = Some c'.
Proof.
  induction n as [|n IH]; intros c c'; simpl; [auto|].
  destruct (viz_step now c); [apply IH | discriminate | discriminate].
Qed.

Lemma cloud_cb_as_steps now cloud w vp :
  capture_steps (if new_cloud_ (self w) then 6 else 9) now cloud
                (mkConc w None CIdle vp)
  = Some (mkConc (cloud_cb now cloud w) None CIdle vp).
Proof.
  destruct w as [[d cl vs ms fl] vz f1 f2 co sl sh].
  unfold cloud_cb, capture_steps, capture_step.
  cbn [world mtx_ cpc vpc self fps_computation new_cloud_].
  destruct (FPS_CALC "computation" now f1) as [fps text] eqn:E.
  destruct fl; cbn; rewrite ?E; cbn; reflexivity.
Qed.

Lemma events_are_interleavings (es : list (Event Frame Double)) : forall w w',
  run_events es w = Some w' ->
  exists sched,
    exec sched (mkConc w None CIdle V105) = Some (mkConc w' None CIdle V105).
Proof.
  induction es as [|e es IH]; intros w w'; simpl.
  - intros [= <-]. exists []. reflexivity.
  - destruct e as [now cloud | now]; simpl.
    + intros Hrun. destruct (IH _ _ Hrun) as (sched & Hs).
      exists (repeat (ACapture now cloud) (if new_cloud_ (self w) then 6 else 9)
              ++ sched).
      rewrite exec_app.
      rewrite (exec_capture_steps _ _ _ _ _ (cloud_cb_as_steps now cloud w V105)).
      exact Hs.
    + destruct (viz_cb now w) as [w1|] eqn:E; [|discriminate].
      intros Hrun. destruct (IH _ _ Hrun) as (sched & Hs).
      destruct (viz_cb_as_steps now (mkConc w None CIdle V105) eq_refl eq_refl)
        as (w1' & Hv & Hsteps).
      { cbn. intros Hflag. unfold viz_cb in E. rewrite Hflag in E. cbn in E.
        destruct (FPS_CALC _ _ _) in E. destruct (mesh_ (self w)); [eauto|discriminate]. }
      cbn [world cpc] in Hv, Hsteps. rewrite E in Hv. injection Hv as <-.
      exists (repeat (AViz now) (if new_cloud_ (self w) then 9 else 2) ++ sched).
      rewrite exec_app, (exec_viz_steps _ _ _ _ Hsteps). exact Hs.
Qed.

Lemma event_states_reachable d (es : list (Event Frame Double)) w :
  run_events es (world0 d) = Some w ->
  reachable (mkConc w None CIdle V105).
Proof.
  intros Hrun. destruct (events_are_interleavings es _ _ Hrun) as (sched & Hs).
  exists d, sched. exact Hs.
Qed.

(** C9 (as amended): in every reachable state, each step of the capture
    handler that reads or writes a shared data member is taken with the
    mutex held by the capture thread; each step of the render handler that
    reads [mesh_] or writes [new_cloud_] is taken with the mutex held by
    the visualization thread; the render handler's entry test of
    [new_cloud_] is taken without it; and a step that can suspend the
    thread (the sleep, taking the mutex) is never taken by a thread that
    holds the mutex. *)
Theorem lock_discipline (c : K) a l c' :
  reachable c ->
  step a c = Stepped l c' ->
  (actor a = CaptureThread -> touched l <> [] -> mtx_ c = Some CaptureThread)
  /\ (actor a = VisualizationThread ->
      In (Rd F_mesh) (touched l) \/ In (Wr F_new_cloud) (touched l) ->
      mtx_ c = Some VisualizationThread)
  /\ (actor a = VisualizationThread ->
      touched l = [Rd F_new_cloud] ->
      mtx_ c <> Some VisualizationThread)
  /\ (blocking l = true -> mtx_ c <> Some (actor a)).
Proof.
  intros Hreach. destruct (reachable_inv c Hreach) as [Hm He _ _ _ _ _ _].
  destruct c as [w mtx cp vp]. unfold owner in Hm. cbn [mtx_ cpc vpc] in *.
  destruct a as [now delivered | now]; cbn [step actor].
  - unfold capture_step. cbn [world mtx_ cpc vpc].
    destruct cp; cbn [capture_holds] in *.
    all: try (destruct mtx; [discriminate|]).
    all: try (destruct (FPS_CALC _ _ _) as [fps text]).
    all: try (destruct (mesh_ (self w)); [|discriminate]).
    all: intros E; injection E as <- _; cbn [touched blocking].
    all: repeat split; try discriminate; try congruence.
  - unfold viz_step. cbn [world mtx_ cpc vpc].
    destruct vp; cbn [viz_holds] in *.
    all: try (destruct mtx; [discriminate|]).
    all: try (destruct (FPS_CALC _ _ _) as [fps text]).
    all: try (destruct (mesh_ (self w)); [|discriminate]).
    all: intros E; injection E as <- _; cbn [touched blocking].
    all: repeat split; try discriminate; try congruence.
    all: try solve [intros _ Hin; cbn in Hin; intuition discriminate].
    all: destruct (capture_holds cp) eqn:Ec;
      try (subst mtx; discriminate); try congruence.
    all: try (exfalso; apply He; reflexivity).
Qed.

(** ** [cloud_cb] as a run of the capture thread *)

(** C2: started with the mutex free, the capture thread runs [cloud_cb] in
    six steps when a pair is pending and nine when none is; after the
    first step and until the last it holds the mutex; the run ends with
    the mutex released in the state that [cloud_cb] computes. In that
    state [mesh_] is the mesh reconstructed from the delivered frame with
    maximum edge length 1.5, triangle pixel size 1 and the adaptive-cut
    mode when no pair was pending, and the mesh it was otherwise;
    [cloud_] is the delivered frame and [new_cloud_] is true in both
    cases. *)
Theorem cloud_cb_contract now cloud (c : K) :
  cpc c = CIdle ->
  mtx_ c = None ->
  capture_steps (if new_cloud_ (self (world c)) then 6 else 9) now cloud c
  = Some (mkConc (cloud_cb now cloud (world c)) None CIdle (vpc c))
  /\ (forall k, (0 < k < if new_cloud_ (self (world c)) then 6 else 9)%nat ->
      exists ck, capture_steps k now cloud c = Some ck
                 /\ mtx_ ck = Some CaptureThread
                 /\ cpc ck <> CIdle)
  /\ mesh_ (self (cloud_cb now cloud (world c)))
     = (if new_cloud_ (self (world c)) then mesh_ (self (world c))
        else Some (reconstruct (mkOFM (3 # 2) 1 TRIANGLE_ADAPTIVE_CUT (Some cloud))))
  /\ cloud_ (self (cloud_cb now cloud (world c))) = Some cloud
  /\ new_cloud_ (self (cloud_cb now cloud (world c))) = true.
Proof.
  destruct c as [[[d cl vs ms fl] vz f1 f2 co sl sh] mtx cp vp].
  cbn [cpc mtx_ world self new_cloud_ mesh_ vpc]. intros -> ->.
  split; [|split].
  - unfold cloud_cb, capture_steps, capture_step.
    cbn [world mtx_ cpc vpc self fps_computation new_cloud_].
    destruct (FPS_CALC "computation" now f1) as [fps text] eqn:E.
    destruct fl; cbn; rewrite ?E; cbn; reflexivity.
  - intros k Hk.
    unfold capture_steps, capture_step.
    destruct fl.
    + assert (Hcases : (k = 1 \/ k = 2 \/ k = 3 \/ k = 4 \/ k = 5)%nat) by lia.
      destruct Hcases as [->|[->|[->|[->| ->]]]].
      all: cbn; destruct (FPS_CALC "computation" now f1) as [fps text] eqn:E.
      all: cbn; eexists; split; [reflexivity|]; split; [reflexivity|discriminate].
    + assert (Hcases : (k = 1 \/ k = 2 \/ k = 3 \/ k = 4 \/ k = 5
                        \/ k = 6 \/ k = 7 \/ k = 8)%nat) by lia.
      destruct Hcases as [->|[->|[->|[->|[->|[->|[->| ->]]]]]]].
      all: cbn; destruct (FPS_CALC "computation" now f1) as [fps text] eqn:E.
      all: cbn; eexists; split; [reflexivity|]; split; [reflexivity|discriminate].
  - rewrite cloud_cb_self. cbn. destruct fl; auto.
Qed.

(** * Further properties of the code *)

(** ** The frame-rate counter over any number of passes *)

Lemma endls_app (a b : list (Out Double)) : endls (a ++ b) = (endls a + endls b)%nat.
Proof.
  induction a as [|o a IH]; [reflexivity|].
  destruct o; cbn [app endls]; rewrite IH; reflexivity.
Qed.

(** X1: at a call site whose counter is in range, after any number [n] of
    passes the counter is [(count + n) mod 100] and the passes have written
    [(count + n) / 100] lines, one per report; the wrap-around of the
    [unsigned] counter is never reached. From fresh statics that is one
    report per full hundred of passes. *)
Theorem fps_calls_counts what (times : list Double) : forall (st : FpsSite Double),
  0 <= count st < 100 ->
  count (fst (fps_calls what times st)) = (count st + Z.of_nat (length times)) mod 100
  /\ Z.of_nat (endls (snd (fps_calls what times st)))
     = (count st + Z.of_nat (length times)) / 100.
Proof.
  induction times as [|t times IH]; intros st Hc.
  - cbn [fps_calls fst snd length endls]. rewrite Z.add_0_r.
    rewrite Z.mod_small, Z.div_small by lia. split; reflexivity.
  - cbn [fps_calls]. rewrite FPS_CALC_cases.
    assert (Hmod : (count st + 1) mod UINT_MODULUS = count st + 1).
    { apply Z.mod_small. unfold UINT_MODULUS. lia. }
    rewrite Hmod.
    destruct (decide (count st + 1 = 100)) as [E|E].
    + destruct (IH (mkFps 0 (Some t))) as [IH1 IH2]; [cbn; lia|].
      destruct (fps_calls what times (mkFps 0 (Some t))) as [st2 text2].
      cbn [fst snd count] in *.
      replace (count st + Z.of_nat (length (t :: times)))
        with (0 + Z.of_nat (length times) + 1 * 100) by (cbn [length]; lia).
      rewrite Z.mod_add, Z.div_add by lia.
      split; [exact IH1|].
      unfold rate_report. cbn [app endls]. lia.
    + destruct (IH (mkFps (count st + 1) (Some (default t (last st))))) as [IH1 IH2];
        [cbn; lia|].
      destruct (fps_calls what times _) as [st2 text2].
      cbn [fst snd count app] in *.
      replace (count st + Z.of_nat (length (t :: times)))
        with (count st + 1 + Z.of_nat (length times)) by (cbn [length]; lia).
      split; assumption.
Qed.

(** ** usage *)

Lemma endls_blocks {A} (f : nat -> A -> list (Out Double)) (k : nat) (l : list A) :
  (forall i x, endls (f i x) = k) ->
  endls (concat (imap f l)) = (k * length l)%nat.
Proof.
  revert f. induction l as [|x l IH]; intros f Hf; cbn [imap concat length endls].
  - lia.
  - rewrite endls_app, Hf, (IH (f ∘ S)) by (intros; apply Hf). lia.
Qed.

Lemma block_at {A B} (f : nat -> A -> list B) (k : nat) (l : list A) : forall i x,
  (forall j y, length (f j y) = k) ->
  l !! i = Some x ->
  take k (drop (k * i) (concat (imap f l))) = f i x.
Proof.
  revert f. induction l as [|y l IH]; intros f i x Hf Hl; [discriminate Hl|].
  cbn [imap concat]. destruct i as [|i].
  - injection Hl as ->. rewrite Nat.mul_0_r. cbn [drop].
    apply take_app_length'. symmetry. apply Hf.
  - replace (k * S i)%nat with (length (f 0%nat y) + k * i)%nat by (rewrite Hf; lia).
    rewrite drop_app_add. apply (IH (f ∘ S)); [intros; apply Hf | exact Hl].
Qed.

(** X2: [usage] always starts with the usage line, whose last token ends
    with two newline characters of its own. After it, [usage] writes
    "No devices connected." and one [std::endl] when no device is
    connected, and otherwise four [std::endl] per device: the three lines
    that explain [device_id] are inside the loop and so are repeated for
    every device. *)
Theorem usage_lines argv (devices : list Device) :
  take 3 (usage (Double := Double) argv devices)
  = [OStr "usage: "; OStr (nth 0 argv EmptyString);
     OStr (" <device_id> <options>"
           +:+ String (Ascii.ascii_of_nat 10)
                 (String (Ascii.ascii_of_nat 10) EmptyString))]
  /\ endls (drop 3 (usage (Double := Double) argv devices))
     = match devices with [] => 1%nat | _ => (4 * length devices)%nat end
  /\ (devices = [] ->
      drop 3 (usage (Double := Double) argv devices)
      = [OStr "No devices connected."; OEndl]).
Proof.
  unfold usage. split; [reflexivity|].
  rewrite drop_app_length' by reflexivity.
  split.
  - destruct devices as [|d devices]; [reflexivity|].
    exact (endls_blocks usage_device 4 (d :: devices) (fun _ _ => eq_refl)).
  - intros ->. reflexivity.
Qed.

(** X3: for the device at position [i] of the driver's list, [usage] writes
    its block of twenty tokens right after the three tokens of the usage
    line and the blocks of the devices before it; the number in the block
    is [i + 1] (devices are numbered from one) and the other fields are the
    driver's. *)
Theorem usage_device_block argv (devices : list Device) i d :
  devices !! i = Some d ->
  Z.of_nat i + 1 < UINT_MODULUS ->
  take 20 (drop (3 + 20 * i) (usage (Double := Double) argv devices))
  = usage_device i d
  /\ take 14 (usage_device (Double := Double) i d)
     = [OStr "Device: "; OUnsigned (Z.of_nat i + 1);
        OStr ", vendor: "; OStr (vendor_name d);
        OStr ", product: "; OStr (product_name d);
        OStr ", connected: "; OInt (bus d); OStr " @ "; OInt (address d);
        OStr ", serial number: '"; OStr (serial_number d); OStr "'"; OEndl].
Proof.
  intros Hd Hi. split.
  - unfold usage.
    rewrite <- drop_drop. rewrite drop_app_length' by reflexivity.
    destruct devices as [|d0 devices]; [discriminate Hd|].
    exact (block_at usage_device 20 (d0 :: devices) i d (fun _ _ => eq_refl) Hd).
  - unfold usage_device. cbn [take].
    rewrite Z.mod_small by lia. reflexivity.
Qed.

(** ** Runs of events from the start of the program *)

Lemma FPS_CALC_count what now (st : FpsSite Double) :
  0 <= count st < 100 ->
  count (fst (FPS_CALC what now st)) = (count st + 1) mod 100.
Proof.
  intros H. rewrite FPS_CALC_cases.
  assert (Hmod : (count st + 1) mod UINT_MODULUS = count st + 1).
  { apply Z.mod_small. unfold UINT_MODULUS. lia. }
  rewrite Hmod. destruct (decide (count st + 1 = 100)) as [E|E]; cbn [fst count].
  - rewrite E. reflexivity.
  - rewrite Z.mod_small by lia. reflexivity.
Qed.

Lemma captured_app (es1 es2 : list (Event Frame Double)) :
  captured (es1 ++ es2) = captured es1 ++ captured es2.
Proof.
  induction es1 as [|[t f|t] es1 IH]; cbn [app captured]; rewrite ?IH; reflexivity.
Qed.

Lemma cloud_cb_fps now cloud w :
  fps_computation (cloud_cb now cloud w)
  = fst (FPS_CALC "computation" now (fps_computation w)).
Proof. unfold cloud_cb. destruct (FPS_CALC _ _ _). reflexivity. Qed.

(** What one callback does to the measures of a run. *)
Lemma viz_cb_cases now w w' :
  viz_cb now w = Some w' ->
  (new_cloud_ (self w) = false
   /\ self w' = self w /\ viz w' = viz w /\ shown w' = shown w
   /\ fps_computation w' = fps_computation w
   /\ fps_visualization w' = fps_visualization w)
  \/ (new_cloud_ (self w) = true
      /\ exists m, mesh_ (self w) = Some m
         /\ self w' = mkApp (device_id_ (self w)) None (vertices_ (self w)) (Some m) false
         /\ viz w' = setShapeRenderingProperties WIREFRAME "surface"
                       (addPolygonMesh m "surface" (removeShape "surface" (viz w)))
         /\ shown w' = m :: shown w
         /\ fps_computation w' = fps_computation w
         /\ fps_visualization w'
            = fst (FPS_CALC "visualization" now (fps_visualization w))).
Proof.
  unfold viz_cb. destruct (new_cloud_ (self w)) eqn:Hflag; cbn [negb].
  - destruct (FPS_CALC _ _ _) as [fps text] eqn:E. cbn [mesh_].
    destruct (mesh_ (self w)) as [m|] eqn:Hm; [|discriminate].
    intros [= <-]. right. split; [reflexivity|]. exists m. cbn. auto 10.
  - intros [= <-]. left. cbn. auto 10.
Qed.

Lemma counters_along (es : list (Event Frame Double)) : forall w w',
  0 <= count (fps_computation w) < 100 ->
  0 <= count (fps_visualization w) < 100 ->
  run_events es w = Some w' ->
  exists k : nat,
    length (shown w') = (k + length (shown w))%nat
    /\ count (fps_visualization w')
       = (count (fps_visualization w) + Z.of_nat k) mod 100
    /\ count (fps_computation w')
       = (count (fps_computation w) + Z.of_nat (length (captured es))) mod 100.
Proof.
  induction es as [|e es IH]; intros w w' Hc Hv; cbn [run_events].
  - intros [= <-]. exists 0%nat. cbn [length captured].
    rewrite !Z.add_0_r, !Z.mod_small by lia. auto.
  - destruct e as [t f|t]; cbn [handle captured length].
    + intros Hrun.
      destruct (cloud_cb_frame t f w) as (_ & Hs & _ & Hfv).
      destruct (IH (cloud_cb t f w) w') as (k & H1 & H2 & H3).
      { rewrite cloud_cb_fps. apply FPS_CALC_range, Hc. }
      { rewrite Hfv. exact Hv. }
      { exact Hrun. }
      exists k. rewrite Hs in H1. rewrite Hfv in H2.
      split; [exact H1|]. split; [exact H2|].
      rewrite H3, cloud_cb_fps, FPS_CALC_count by exact Hc.
      rewrite Z.add_mod_idemp_l by lia. f_equal. lia.
    + destruct (viz_cb t w) as [w1|] eqn:E; [|discriminate].
      intros Hrun.
      destruct (viz_cb_cases t w w1 E)
        as [(_ & _ & _ & Hs & Hfc & Hfv) | (_ & m & _ & _ & _ & Hs & Hfc & Hfv)].
      * destruct (IH w1 w') as (k & H1 & H2 & H3);
          [rewrite Hfc; exact Hc | rewrite Hfv; exact Hv | exact Hrun |].
        exists k. rewrite Hs in H1. rewrite Hfv in H2. rewrite Hfc in H3. auto.
      * destruct (IH w1 w') as (k & H1 & H2 & H3);
          [rewrite Hfc; exact Hc
          | rewrite Hfv; apply FPS_CALC_range, Hv | exact Hrun |].
        exists (S k). rewrite Hs in H1. rewrite Hfc in H3.
        split; [rewrite H1; cbn [length]; lia|]. split; [|exact H3].
        rewrite H2, Hfv, FPS_CALC_count by exact Hv.
        rewrite Z.add_mod_idemp_l by lia. f_equal. lia.
Qed.

(** X4: after any run of events from the start of the program, the
    "computation" counter is the number of frames delivered modulo 100,
    whatever the renders did, and the "visualization" counter is the number
    of meshes handed to the viewer modulo 100: a render that finds nothing
    pending is not counted. *)
Theorem counters_after_run d (es : list (Event Frame Double)) w :
  run_events es (world0 d) = Some w ->
  count (fps_computation w) = Z.of_nat (length (captured es)) mod 100
  /\ count (fps_visualization w) = Z.of_nat (length (shown w)) mod 100.
Proof.
  intros Hrun.
  destruct (counters_along es (world0 d) w) as (k & H1 & H2 & H3);
    [cbn; lia | cbn; lia | exact Hrun |].
  cbn [world0 shown length fps_computation fps_visualization count] in *.
  rewrite Nat.add_0_r in H1. rewrite H1, H2, H3. auto.
Qed.

Lemma renders_bounded_along (es : list (Event Frame Double)) : forall w w',
  run_events es w = Some w' ->
  (length (shown w') + Nat.b2n (new_cloud_ (self w'))
   <= length (shown w) + Nat.b2n (new_cloud_ (self w)) + length (captured es))%nat.
Proof.
  induction es as [|e es IH]; intros w w'; cbn [run_events].
  - intros [= <-]. lia.
  - destruct e as [t f|t]; cbn [handle captured length].
    + intros Hrun. specialize (IH _ _ Hrun).
      destruct (cloud_cb_frame t f w) as (_ & Hs & _).
      rewrite Hs, cloud_cb_self in IH. cbn [self new_cloud_ Nat.b2n] in IH.
      destruct (new_cloud_ (self w)); cbn [Nat.b2n]; lia.
    + destruct (viz_cb t w) as [w1|] eqn:E; [|discriminate].
      intros Hrun. specialize (IH _ _ Hrun).
      destruct (viz_cb_cases t w w1 E)
        as [(_ & Hself & _ & Hs & _) | (Hflag & m & _ & Hself & _ & Hs & _)].
      * rewrite Hself, Hs in IH. exact IH.
      * rewrite Hself, Hs in IH. rewrite Hflag.
        cbn [new_cloud_ Nat.b2n length] in *. lia.
Qed.

(** X5: after any run of events from the start of the program, the number
    of meshes handed to the viewer, plus one if a pair is pending, is at
    most the number of frames delivered: every consuming render needs a
    capture of its own, and renders never show more than was captured. *)
Theorem renders_bounded d (es : list (Event Frame Double)) w :
  run_events es (world0 d) = Some w ->
  (length (shown w) + Nat.b2n (new_cloud_ (self w)) <= length (captured es))%nat.
Proof.
  intros Hrun. apply renders_bounded_along in Hrun.
  cbn [world0 shown self OpenNIFastMesh_new new_cloud_ length Nat.b2n] in Hrun. lia.
Qed.

(** X6: after any run of events from the start of the program, the frame
    slot is filled exactly when PendingFlag is true, and it then holds the
    frame delivered last: for the stored frame the hand-off is latest-wins. *)
Theorem slot_holds_latest_frame d (es : list (Event Frame Double)) w :
  run_events es (world0 d) = Some w ->
  cloud_ (self w) = if new_cloud_ (self w) then list.last (captured es) else None.
Proof.
  revert w. induction es as [|e es IH] using rev_ind; intros w.
  - intros [= <-]. reflexivity.
  - rewrite run_events_app.
    destruct (run_events es (world0 d)) as [w1|] eqn:E; [|discriminate].
    specialize (IH w1 eq_refl). rewrite captured_app.
    destruct e as [t f|t]; cbn [run_events handle captured].
    + intros [= <-]. rewrite cloud_cb_self. cbn [self cloud_ new_cloud_].
      rewrite last_snoc. reflexivity.
    + destruct (viz_cb t w1) as [w2|] eqn:Ev; [|discriminate].
      intros [= <-]. rewrite app_nil_r.
      destruct (viz_cb_cases t w1 w2 Ev)
        as [(_ & Hself & _) | (_ & m & _ & Hself & _)]; rewrite Hself.
      * exact IH.
      * reflexivity.
Qed.

Lemma viewer_after_render m (v : gmap string (Shape Mesh)) :
  (forall k, k <> "surface" -> v !! k = None) ->
  setShapeRenderingProperties WIREFRAME "surface"
    (addPolygonMesh m "surface" (removeShape "surface" v))
  = {["surface" := mkShape m WIREFRAME]}.
Proof.
  intros Hv. apply map_eq. intros k.
  destruct (decide (k = "surface")) as [->|Hk].
  - rewrite surface_after_render, lookup_singleton_eq. reflexivity.
  - unfold setShapeRenderingProperties, addPolygonMesh, removeShape.
    rewrite lookup_delete_eq, lookup_alter_ne, lookup_insert_ne by congruence.
    rewrite lookup_delete_ne, lookup_singleton_ne by congruence. apply Hv, Hk.
Qed.

(** X7: after any run of events from the start of the program, the viewer
    holds nothing if no render consumed a pair, and otherwise exactly one
    shape, named "surface", in wireframe, which is the mesh handed over
    last: the remove-then-add of lines 119-121 never lets shapes pile up. *)
Theorem viewer_holds_last_mesh d (es : list (Event Frame Double)) w :
  run_events es (world0 d) = Some w ->
  viz w = match shown w with
          | [] => ∅
          | m :: _ => {["surface" := mkShape m WIREFRAME]}
          end.
Proof.
  revert w. induction es as [|e es IH] using rev_ind; intros w.
  - intros [= <-]. reflexivity.
  - rewrite run_events_app.
    destruct (run_events es (world0 d)) as [w1|] eqn:E; [|discriminate].
    specialize (IH w1 eq_refl).
    destruct e as [t f|t]; cbn [run_events handle].
    + intros [= <-]. destruct (cloud_cb_frame t f w1) as (Hv & Hs & _).
      rewrite Hv, Hs. exact IH.
    + destruct (viz_cb t w1) as [w2|] eqn:Ev; [|discriminate].
      intros [= <-].
      destruct (viz_cb_cases t w1 w2 Ev)
        as [(_ & _ & Hv & Hs & _) | (_ & m & _ & _ & Hv & Hs & _)];
        rewrite Hv, Hs.
      * exact IH.
      * apply viewer_after_render. intros k Hk. rewrite IH.
        destruct (shown w1); [apply lookup_empty|].
        apply lookup_singleton_ne. congruence.
Qed.

(** ** The two threads: where the data come from *)

Lemma Provenance_mono (D E : list Frame) (c : K) :
  Provenance D c -> Provenance (D ++ E) c.
Proof.
  intros [Hc Hv Hcl Hm Hs]. split.
  - intros f H. apply in_or_app. left. apply Hc, H.
  - intros f H. apply in_or_app. left. apply Hv, H.
  - intros f H. apply in_or_app. left. apply Hcl, H.
  - intros H. destruct (Hm H) as (m & E1 & g & Hg & E2).
    exists m. split; [exact E1|]. exists g. split; [apply in_or_app; left; exact Hg | exact E2].
  - intros m H. destruct (Hs m H) as (g & Hg & E2).
    exists g. split; [apply in_or_app; left; exact Hg | exact E2].
Qed.

Lemma Provenance_conc0 d : Provenance [] (conc0 d : K).
Proof.
  split; cbn; try discriminate.
  - intros [H|H]; discriminate H.
  - intros m [].
Qed.

Ltac prov_goal :=
  unfold from_offered in *; cbn in *; intros;
  repeat match goal with
    | H : Some _ = Some _ |- _ => injection H as H; subst
    | H : false = true |- _ => discriminate H
    | H : true = false |- _ => discriminate H
    | H : None = Some _ |- _ => discriminate H
    | H : false = true \/ false = true |- _ => destruct H as [H|H]; discriminate H
    | H : true = true -> _ |- _ => specialize (H eq_refl)
    | H : true = true \/ _ -> _ |- _ => specialize (H (or_introl eq_refl))
    | H : _ \/ true = true -> _ |- _ => specialize (H (or_intror eq_refl))
    | H : exists _, _ |- _ => destruct H
    | H : _ /\ _ |- _ => destruct H
    | H : _ = ?m \/ In ?m _ |- _ => destruct H as [H|H]; subst
    end;
  try discriminate;
  try solve [ eauto 6 ].

Lemma capture_step_prov now delivered (D : list Frame) (c : K) l c' :
  (cpc c = CIdle -> In delivered D) ->
  Inv c -> Provenance D c ->
  capture_step now delivered c = Stepped l c' -> Provenance D c'.
Proof.
  destruct c as [[[d cl vs ms fl] vz f1 f2 co sl sh] mtx cp vp].
  intros Hd [Hm He Hr Ha Hc Hz Hmesh Hcloud] [Pc Pv Pcl Pm Ps].
  unfold capture_step. cbn [world mtx_ cpc vpc self] in *.
  destruct cp as [|f|f|f|f|f|f|f|f]; [specialize (Hd eq_refl) | clear Hd ..].
  all: try (destruct mtx; [discriminate|]).
  all: try (destruct (FPS_CALC _ _ _) as [fps text]).
  all: try (destruct ms as [m0|]; [|discriminate]).
  all: try (intros E; injection E as <- <-; destruct fl; split; prov_goal).
Qed.

Lemma viz_step_prov now (D : list Frame) (c : K) l c' :
  Inv c -> Provenance D c ->
  viz_step now c = Stepped l c' -> Provenance D c'.
Proof.
  destruct c as [[[d cl vs ms fl] vz f1 f2 co sl sh] mtx cp vp].
  intros [Hm He Hr Ha Hc Hz Hmesh Hcloud] [Pc Pv Pcl Pm Ps].
  unfold viz_step. cbn [world mtx_ cpc vpc self] in *.
  destruct vp as [| | |t|t|t|t|t|t|t].
  all: try (destruct mtx; [discriminate|]).
  all: try (destruct (FPS_CALC _ _ _) as [fps text]).
  all: try (destruct ms as [m0|]; [|discriminate]).
  all: try (intros E; injection E as <- <-; destruct fl; split; prov_goal).
Qed.

Lemma offered_app (s1 s2 : list (Action Frame Double)) :
  offered (s1 ++ s2) = offered s1 ++ offered s2.
Proof.
  induction s1 as [|[t f|t] s1 IH]; cbn [app offered]; rewrite ?IH; reflexivity.
Qed.

Lemma step_prov a (D : list Frame) (c : K) l c' :
  Inv c -> Provenance D c ->
  step a c = Stepped l c' -> Provenance (D ++ taken a c) c'.
Proof.
  intros HI HP. destruct a as [t f|t]; cbn [step]; intros E.
  - apply (capture_step_prov t f (D ++ taken (ACapture t f) c) c l c').
    + intros Hidle. unfold taken. rewrite Hidle.
      apply in_or_app. right. left. reflexivity.
    + exact HI.
    + apply Provenance_mono, HP.
    + exact E.
  - unfold taken. rewrite app_nil_r. exact (viz_step_prov t D c l c' HI HP E).
Qed.

Lemma exec_prov (sched : list (Action Frame Double)) : forall (D : list Frame) (c c' : K),
  Inv c -> Provenance D c ->
  exec sched c = Some c' -> Provenance (D ++ passed sched c) c'.
Proof.
  induction sched as [|a sched IH]; intros D c c' HI HP; cbn [exec passed].
  - intros [= <-]. rewrite app_nil_r. exact HP.
  - destruct (step a c) as [l c1| |] eqn:E; [| |discriminate].
    + rewrite app_assoc. apply IH.
      * exact (step_inv a c l c1 HI E).
      * exact (step_prov a D c l c1 HI HP E).
    + apply IH; assumption.
Qed.

(** X8: on every schedule of the two threads, every mesh ever handed to the
    viewer is the result of [reconstruct] on the configured triangulation
    object for a cloud that was passed to [cloud_cb] on that schedule, and
    every frame found in the slot is such a cloud: neither the freshly
    allocated empty mesh of line 87 nor a null mesh is ever shown, and a
    cloud that the grabber held out while [cloud_cb] was busy or blocked
    leaves no trace. *)
Theorem shown_meshes_from_delivered_frames d (sched : list (Action Frame Double))
    (c : K) :
  exec sched (conc0 d) = Some c ->
  (forall m, In m (shown (world c)) ->
     exists g, In g (passed sched (conc0 d)) /\ m = reconstruct (configured_ofm g))
  /\ (forall f, cloud_ (self (world c)) = Some f -> In f (passed sched (conc0 d))).
Proof.
  intros Hrun.
  destruct (exec_prov sched [] (conc0 d) c (Inv_conc0 d) (Provenance_conc0 d) Hrun)
    as [_ _ Pcl _ Ps].
  cbn [app] in *. split; [exact Ps | exact Pcl].
Qed.

(** ** The two threads: the mutex *)

(** X9: in every reachable state the mutex is held by the capture thread
    exactly when that thread is between lines 83 and 100 of [cloud_cb], by
    the visualization thread exactly when it is between lines 115 and 126
    of [viz_cb], and by nobody otherwise; the two threads are never in
    those regions together. *)
Theorem mutual_exclusion (c : K) :
  reachable c ->
  (mtx_ c = Some CaptureThread <-> capture_holds (cpc c) = true)
  /\ (mtx_ c = Some VisualizationThread <-> viz_holds (vpc c) = true)
  /\ (capture_holds (cpc c) = true -> viz_holds (vpc c) = true -> False).
Proof.
  intros Hreach. destruct (reachable_inv c Hreach) as [Hm He _ _ _ _ _ _].
  unfold owner in Hm. rewrite Hm.
  destruct (capture_holds (cpc c)) eqn:Ec, (viz_holds (vpc c)) eqn:Ev.
  - exfalso. apply He; reflexivity.
  - repeat split; intros; try discriminate; auto.
  - repeat split; intros; try discriminate; auto.
  - repeat split; intros; try discriminate; auto.
Qed.

(** X10: no reachable state is a deadlock: whenever one thread is blocked on
    the mutex, the other thread's next step is not. *)
Theorem no_deadlock (c : K) now now' f :
  reachable c ->
  (capture_step now f c = Blocked -> exists l c', viz_step now' c = Stepped l c')
  /\ (viz_step now' c = Blocked -> exists l c', capture_step now f c = Stepped l c').
Proof.
  intros Hreach.
  destruct (reachable_inv c Hreach) as [Hm He _ Ha Hc _ Hmesh _].
  destruct c as [[[d cl vs ms fl] vz f1 f2 co sl sh] mtx cp vp].
  unfold owner in Hm. cbn [world mtx_ cpc vpc self mesh_ new_cloud_] in *.
  split.
  - unfold capture_step. cbn [world mtx_ cpc vpc self mesh_].
    destruct cp; cbn [capture_holds] in *; try discriminate.
    + destruct mtx as [th|]; [|discriminate]. intros _.
      destruct (viz_holds vp) eqn:Ev; [|discriminate].
      unfold viz_step. cbn [world mtx_ cpc vpc self mesh_].
      destruct vp; try discriminate; cbn [viz_committed] in *.
      * destruct (FPS_CALC _ _ _). eauto.
      * eauto.
      * destruct Hmesh as [g Hg]; [left; apply Hc; reflexivity|]. rewrite Hg. eauto.
      * eauto.
      * eauto.
      * eauto.
    + destruct (FPS_CALC _ _ _). discriminate.
    + destruct ms; discriminate.
  - unfold viz_step. cbn [world mtx_ cpc vpc self mesh_].
    destruct vp; cbn [viz_holds] in *; try discriminate.
    + destruct mtx as [th|]; [|discriminate]. intros _.
      destruct (capture_holds cp) eqn:Ec; [|discriminate].
      unfold capture_step. cbn [world mtx_ cpc vpc self mesh_].
      destruct cp; try discriminate; cbn [mesh_allocated] in *.
      * destruct (FPS_CALC _ _ _). eauto.
      * eauto.
      * eauto.
      * eauto.
      * destruct Ha as [m Hm']; [reflexivity|]. rewrite Hm'. eauto.
      * eauto.
      * eauto.
      * eauto.
    + destruct (FPS_CALC _ _ _). discriminate.
    + destruct ms; discriminate.
Qed.

(** At line 100 the flag is set: the other thread cannot clear it without
    the mutex. *)
Lemma step_raised a (c : K) l c' :
  Inv c ->
  (flag_raised (cpc c) = true -> new_cloud_ (self (world c)) = true) ->
  step a c = Stepped l c' ->
  flag_raised (cpc c') = true -> new_cloud_ (self (world c')) = true.
Proof.
  destruct c as [[[d cl vs ms fl] vz f1 f2 co sl sh] mtx cp vp].
  intros [Hm He _ _ _ _ _ _] HP. unfold owner in Hm.
  cbn [world mtx_ cpc vpc self new_cloud_] in *.
  destruct a as [now f|now]; cbn [step].
  - unfold capture_step. cbn [world mtx_ cpc vpc self mesh_ new_cloud_].
    destruct cp.
    all: try (destruct mtx; [discriminate|]).
    all: try (destruct (FPS_CALC _ _ _) as [fps text]).
    all: try (destruct ms as [m0|]; [|discriminate]).
    all: intros E; injection E as <- <-; cbn; try discriminate; auto.
    destruct fl; cbn; discriminate.
  - unfold viz_step. cbn [world mtx_ cpc vpc self mesh_ new_cloud_].
    destruct vp.
    all: try (destruct mtx; [discriminate|]).
    all: try (destruct (FPS_CALC _ _ _) as [fps text]).
    all: try (destruct ms as [m0|]; [|discriminate]).
    all: intros E; injection E as <- <-; cbn; auto.
    intros Hr. exfalso. apply He; [|reflexivity].
    destruct cp; try discriminate Hr. reflexivity.
Qed.

Lemma exec_raised (sched : list (Action Frame Double)) : forall (c c' : K),
  Inv c ->
  (flag_raised (cpc c) = true -> new_cloud_ (self (world c)) = true) ->
  exec sched c = Some c' ->
  flag_raised (cpc c') = true -> new_cloud_ (self (world c')) = true.
Proof.
  induction sched as [|a sched IH]; intros c c' HI HP; cbn [exec].
  - intros [= <-]. exact HP.
  - destruct (step a c) as [l c1| |] eqn:E; [| |discriminate].
    + apply IH; [exact (step_inv a c l c1 HI E) | exact (step_raised a c l c1 HI HP E)].
    + apply IH; assumption.
Qed.

(** X11: a capture thread that holds the mutex releases it within eight
    steps of its own, without blocking or crashing, whatever the position
    of the other thread; it is then outside [cloud_cb], and PendingFlag is
    true. *)
Theorem capture_releases (c : K) now f :
  reachable c ->
  mtx_ c = Some CaptureThread ->
  exists n c',
    (n <= 8)%nat
    /\ capture_steps n now f c = Some c'
    /\ mtx_ c' = None
    /\ cpc c' = CIdle
    /\ vpc c' = vpc c
    /\ new_cloud_ (self (world c')) = true.
Proof.
  intros Hreach Hheld.
  assert (Hraised : flag_raised (cpc c) = true -> new_cloud_ (self (world c)) = true).
  { destruct Hreach as (d & sched & Hrun).
    apply (exec_raised sched (conc0 d) c (Inv_conc0 d)); [discriminate | exact Hrun]. }
  destruct (reachable_inv c Hreach) as [Hm He _ Ha _ _ _ _].
  destruct c as [[[d cl vs ms fl] vz f1 f2 co sl sh] mtx cp vp].
  unfold owner in Hm. cbn [world mtx_ cpc vpc self mesh_ new_cloud_] in *.
  subst mtx.
  destruct cp as [|g|g|g|g|g|g|g|g];
    cbn [capture_holds mesh_allocated flag_raised] in *.
  - destruct (viz_holds vp); discriminate.
  - destruct (FPS_CALC "computation" now f1) as [fps text] eqn:E.
    destruct fl; [exists 5%nat | exists 8%nat]; eexists;
      (split; [lia|]); unfold capture_steps, capture_step; cbn;
      rewrite E; cbn; (split; [reflexivity|]); cbn; auto 10.
  - destruct fl; [exists 4%nat | exists 7%nat]; eexists;
      (split; [lia|]); unfold capture_steps, capture_step; cbn; (split; [reflexivity|]); cbn; auto 10.
  - exists 6%nat. eexists. split; [lia|]. unfold capture_steps, capture_step. cbn. (split; [reflexivity|]). cbn. auto 10.
  - destruct Ha as [m ->]; [reflexivity|].
    exists 5%nat. eexists. split; [lia|]. unfold capture_steps, capture_step. cbn. (split; [reflexivity|]). cbn. auto 10.
  - destruct Ha as [m ->]; [reflexivity|].
    exists 4%nat. eexists. split; [lia|]. unfold capture_steps, capture_step. cbn. (split; [reflexivity|]). cbn. auto 10.
  - exists 3%nat. eexists. split; [lia|]. unfold capture_steps, capture_step. cbn. (split; [reflexivity|]). cbn. auto 10.
  - exists 2%nat. eexists. split; [lia|]. unfold capture_steps, capture_step. cbn. (split; [reflexivity|]). cbn. auto 10.
  - exists 1%nat. eexists. split; [lia|]. unfold capture_steps, capture_step. cbn. (split; [reflexivity|]). cbn. auto 10.
Qed.

(** X12: a visualization thread that holds the mutex releases it within six
    steps of its own, without blocking or crashing (the mesh it
    dereferences at line 121 is there); it is then back at the entry of
    [viz_cb], PendingFlag is false, and one more mesh has been handed to the
    viewer unless line 121 was already passed. *)
Theorem viz_releases (c : K) now :
  reachable c ->
  mtx_ c = Some VisualizationThread ->
  exists n c',
    (n <= 6)%nat
    /\ viz_steps n now c = Some c'
    /\ mtx_ c' = None
    /\ vpc c' = V105
    /\ cpc c' = cpc c
    /\ new_cloud_ (self (world c')) = false
    /\ (length (shown (world c')) <= S (length (shown (world c))))%nat.
Proof.
  intros Hreach Hheld.
  destruct (reachable_inv c Hreach) as [Hm He _ _ Hc _ Hmesh _].
  destruct c as [[[d cl vs ms fl] vz f1 f2 co sl sh] mtx cp vp].
  unfold owner in Hm. cbn [world mtx_ cpc vpc self mesh_ new_cloud_] in *.
  subst mtx.
  destruct (capture_holds cp) eqn:Ec; [discriminate|].
  destruct vp as [| | |t|t|t|t|t|t|t]; cbn [viz_holds viz_committed] in *;
    try discriminate.
  - destruct Hmesh as [g ->]; [left; apply Hc; reflexivity|].
    destruct (FPS_CALC "visualization" now f2) as [fps text] eqn:E.
    exists 6%nat. eexists. split; [lia|]. unfold viz_steps, viz_step. cbn.
    rewrite E. cbn. (split; [reflexivity|]). cbn.
    repeat split; auto.
  - destruct Hmesh as [g ->]; [left; apply Hc; reflexivity|].
    exists 5%nat. eexists. split; [lia|]. unfold viz_steps, viz_step. cbn. (split; [reflexivity|]). cbn.
    repeat split; auto.
  - destruct Hmesh as [g ->]; [left; apply Hc; reflexivity|].
    exists 4%nat. eexists. split; [lia|]. unfold viz_steps, viz_step. cbn. (split; [reflexivity|]). cbn.
    repeat split; auto.
  - exists 3%nat. eexists. split; [lia|]. unfold viz_steps, viz_step. cbn. (split; [reflexivity|]). cbn.
    repeat split; auto.
  - exists 2%nat. eexists. split; [lia|]. unfold viz_steps, viz_step. cbn. (split; [reflexivity|]). cbn.
    repeat split; auto.
  - exists 1%nat. eexists. split; [lia|]. unfold viz_steps, viz_step. cbn.
    destruct (reachable_inv _ Hreach) as [_ _ _ _ _ Hz _ _].
    repeat split; auto.
Qed.

(** ** The two threads: who writes what *)

Lemma step_vertices a (c : K) l c' :
  vertices_unused c -> step a c = Stepped l c' -> vertices_unused c'.
Proof.
  destruct c as [[[d cl vs ms fl] vz f1 f2 co sl sh] mtx cp vp].
  unfold vertices_unused. cbn [world self vertices_]. intros Hv.
  destruct a as [now f|now]; cbn [step].
  - unfold capture_step. cbn [world mtx_ cpc vpc self mesh_ new_cloud_].
    destruct cp.
    all: try (destruct mtx; [discriminate|]).
    all: try (destruct (FPS_CALC _ _ _) as [fps text]).
    all: try (destruct ms as [m0|]; [|discriminate]).
    all: intros E; injection E as <- <-; cbn; auto.
  - unfold viz_step. cbn [world mtx_ cpc vpc self mesh_ new_cloud_].
    destruct vp.
    all: try (destruct mtx; [discriminate|]).
    all: try (destruct (FPS_CALC _ _ _) as [fps text]).
    all: try (destruct ms as [m0|]; [|discriminate]).
    all: intros E; injection E as <- <-; cbn; auto.
Qed.

Lemma exec_vertices (sched : list (Action Frame Double)) : forall (c c' : K),
  vertices_unused c -> exec sched c = Some c' -> vertices_unused c'.
Proof.
  induction sched as [|a sched IH]; intros c c' Hv; cbn [exec].
  - intros [= <-]. exact Hv.
  - destruct (step a c) as [l c1| |] eqn:E; [| |discriminate].
    + apply IH. exact (step_vertices a c l c1 Hv E).
    + apply IH, Hv.
Qed.

(** X13: in every reachable state [vertices_] is null or an empty vector:
    line 88 allocates it anew at every rebuild and nothing ever fills it
    (the call that would is commented out at line 96), and nothing reads
    it. *)
Theorem vertices_never_filled (c : K) :
  reachable c ->
  vertices_ (self (world c)) = None \/ vertices_ (self (world c)) = Some [].
Proof.
  intros (d & sched & Hrun).
  apply (exec_vertices sched (conc0 d) c); [left; reflexivity | exact Hrun].
Qed.

(** X14: a step of the capture thread never changes the viewer, the history
    of meshes shown, the "visualization" counter, the sleep count or the
    other thread's position, never lowers PendingFlag and never nulls
    [mesh_]; a step of the visualization thread never changes [mesh_],
    [vertices_], the "computation" counter or the other thread's position,
    and never raises PendingFlag. *)
Theorem threads_write_their_own (c : K) a l c' :
  step a c = Stepped l c' ->
  match a with
  | ACapture _ _ =>
      viz (world c') = viz (world c)
      /\ shown (world c') = shown (world c)
      /\ fps_visualization (world c') = fps_visualization (world c)
      /\ sleeps (world c') = sleeps (world c)
      /\ vpc c' = vpc c
      /\ (new_cloud_ (self (world c)) = true -> new_cloud_ (self (world c')) = true)
      /\ (is_Some (mesh_ (self (world c))) -> is_Some (mesh_ (self (world c'))))
  | AViz _ =>
      mesh_ (self (world c')) = mesh_ (self (world c))
      /\ vertices_ (self (world c')) = vertices_ (self (world c))
      /\ fps_computation (world c') = fps_computation (world c)
      /\ cpc c' = cpc c
      /\ (new_cloud_ (self (world c')) = true -> new_cloud_ (self (world c)) = true)
  end.
Proof.
  destruct c as [[[d cl vs ms fl] vz f1 f2 co sl sh] mtx cp vp].
  destruct a as [now f|now]; cbn [step].
  - unfold capture_step. cbn [world mtx_ cpc vpc self mesh_ new_cloud_].
    destruct cp.
    all: try (destruct mtx; [discriminate|]).
    all: try (destruct (FPS_CALC _ _ _) as [fps text]).
    all: try (destruct ms as [m0|]; [|discriminate]).
    all: intros E; injection E as <- <-; cbn; repeat split; eauto.
  - unfold viz_step. cbn [world mtx_ cpc vpc self mesh_ new_cloud_].
    destruct vp.
    all: try (destruct mtx; [discriminate|]).
    all: try (destruct (FPS_CALC _ _ _) as [fps text]).
    all: try (destruct ms as [m0|]; [|discriminate]).
    all: intros E; injection E as <- <-; cbn; repeat split; eauto.
    all: discriminate.
Qed.

(** ** What the program writes *)

Lemma FPS_CALC_endls what now (st : FpsSite Double) :
  0 <= count st < 100 ->
  Z.of_nat (endls (snd (FPS_CALC what now st))) = (count st + 1) / 100.
Proof.
  intros H. rewrite FPS_CALC_cases.
  assert (Hmod : (count st + 1) mod UINT_MODULUS = count st + 1).
  { apply Z.mod_small. unfold UINT_MODULUS. lia. }
  rewrite Hmod. destruct (decide (count st + 1 = 100)) as [E|E]; cbn [snd].
  - rewrite E. reflexivity.
  - rewrite Z.div_small by lia. reflexivity.
Qed.

Lemma div_step (c n : Z) :
  0 <= c -> 0 <= n ->
  (c + 1) / 100 + ((c + 1) mod 100 + n) / 100 = (c + (n + 1)) / 100.
Proof.
  intros Hc Hn.
  pose proof (Z.div_mod (c + 1) 100 ltac:(lia)) as E.
  replace (c + (n + 1)) with (((c + 1) mod 100 + n) + (c + 1) / 100 * 100) by lia.
  rewrite Z.div_add by lia. lia.
Qed.

Lemma cloud_cb_cout now cloud w :
  cout (cloud_cb now cloud w)
  = cout w ++ snd (FPS_CALC "computation" now (fps_computation w)).
Proof. unfold cloud_cb. destruct (FPS_CALC _ _ _). reflexivity. Qed.

Lemma viz_cb_cout now w w' :
  viz_cb now w = Some w' ->
  cout w' = cout w ++ (if new_cloud_ (self w)
                       then snd (FPS_CALC "visualization" now (fps_visualization w))
                       else []).
Proof.
  unfold viz_cb. destruct (new_cloud_ (self w)); cbn [negb].
  - destruct (FPS_CALC _ _ _) as [fps text]. cbn [mesh_ snd].
    destruct (mesh_ (self w)); [|discriminate]. intros [= <-]. reflexivity.
  - intros [= <-]. cbn [cout]. rewrite app_nil_r. reflexivity.
Qed.

Lemma output_along (es : list (Event Frame Double)) : forall w w',
  0 <= count (fps_computation w) < 100 ->
  0 <= count (fps_visualization w) < 100 ->
  run_events es w = Some w' ->
  exists (text : list (Out Double)) (k : nat),
    cout w' = cout w ++ text
    /\ length (shown w') = (k + length (shown w))%nat
    /\ Z.of_nat (endls text)
       = (count (fps_computation w) + Z.of_nat (length (captured es))) / 100
         + (count (fps_visualization w) + Z.of_nat k) / 100.
Proof.
  induction es as [|e es IH]; intros w w' Hc Hv; cbn [run_events].
  - intros [= <-]. exists [], 0%nat. cbn [length captured endls].
    rewrite app_nil_r, !Z.add_0_r, !Z.div_small by lia. auto.
  - destruct e as [t f|t]; cbn [handle captured length].
    + intros Hrun.
      destruct (cloud_cb_frame t f w) as (_ & Hs & _ & Hfv).
      destruct (IH (cloud_cb t f w) w') as (text & k & H1 & H2 & H3).
      { rewrite cloud_cb_fps. apply FPS_CALC_range, Hc. }
      { rewrite Hfv. exact Hv. }
      { exact Hrun. }
      exists (snd (FPS_CALC "computation" t (fps_computation w)) ++ text), k.
      rewrite Hs in H2. rewrite Hfv in H3.
      rewrite cloud_cb_fps, FPS_CALC_count in H3 by exact Hc.
      split; [rewrite H1, cloud_cb_cout, app_assoc; reflexivity|].
      split; [exact H2|].
      rewrite endls_app, Nat2Z.inj_add, H3, FPS_CALC_endls by exact Hc.
      rewrite Z.add_assoc, div_step by lia.
      replace (Z.of_nat (S (length (captured es))))
        with (Z.of_nat (length (captured es)) + 1) by lia.
      reflexivity.
    + destruct (viz_cb t w) as [w1|] eqn:E; [|discriminate].
      intros Hrun. pose proof (viz_cb_cout t w w1 E) as Hco.
      destruct (viz_cb_cases t w w1 E)
        as [(Hflag & _ & _ & Hs & Hfc & Hfv) | (Hflag & m & _ & _ & _ & Hs & Hfc & Hfv)];
        rewrite Hflag in Hco.
      * destruct (IH w1 w') as (text & k & H1 & H2 & H3);
          [rewrite Hfc; exact Hc | rewrite Hfv; exact Hv | exact Hrun |].
        exists text, k. rewrite Hco, app_nil_r in H1.
        rewrite Hs in H2. rewrite Hfc, Hfv in H3. auto.
      * destruct (IH w1 w') as (text & k & H1 & H2 & H3);
          [rewrite Hfc; exact Hc
          | rewrite Hfv; apply FPS_CALC_range, Hv | exact Hrun |].
        exists (snd (FPS_CALC "visualization" t (fps_visualization w)) ++ text), (S k).
        rewrite Hs in H2. rewrite Hfc, Hfv in H3.
        rewrite FPS_CALC_count in H3 by exact Hv.
        split; [rewrite H1, Hco, app_assoc; reflexivity|].
        split; [rewrite H2; cbn [length]; lia|].
        rewrite endls_app, Nat2Z.inj_add, H3, FPS_CALC_endls by exact Hv.
        pose proof (div_step (count (fps_visualization w)) (Z.of_nat k)
                      ltac:(lia) ltac:(lia)) as Hd.
        replace (Z.of_nat (S k)) with (Z.of_nat k + 1) by lia.
        rewrite <- Hd. ring.
Qed.

(** X15: a run of events from the start of the program writes one line per
    full hundred of frames delivered and one per full hundred of meshes
    handed to the viewer, and no other line. *)
Theorem output_lines d (es : list (Event Frame Double)) w :
  run_events es (world0 d) = Some w ->
  Z.of_nat (endls (cout w))
  = Z.of_nat (length (captured es)) / 100 + Z.of_nat (length (shown w)) / 100.
Proof.
  intros Hrun.
  destruct (output_along es (world0 d) w) as (text & k & H1 & H2 & H3);
    [cbn; lia | cbn; lia | exact Hrun |].
  cbn [world0 cout shown length fps_computation fps_visualization count app] in *.
  rewrite Nat.add_0_r in H2. rewrite H1, H2, H3. reflexivity.
Qed.

Lemma device_id_along (es : list (Event Frame Double)) : forall w w',
  run_events es w = Some w' -> device_id_ (self w') = device_id_ (self w).
Proof.
  induction es as [|e es IH]; intros w w'; cbn [run_events].
  - intros [= <-]. reflexivity.
  - destruct e as [t f|t]; cbn [handle].
    + intros Hrun. rewrite (IH _ _ Hrun), cloud_cb_self. reflexivity.
    + destruct (viz_cb t w) as [w1|] eqn:E; [|discriminate].
      intros Hrun. rewrite (IH _ _ Hrun).
      destruct (viz_cb_cases t w w1 E)
        as [(_ & Hself & _) | (_ & m & _ & Hself & _)]; rewrite Hself; reflexivity.
Qed.

Lemma main_cases argv (env : Env Frame Double) :
  main argv env = Some (mkExit 1 (usage argv (driver env)) [] None)
  \/ main argv env
     = match run (session env)
               (with_cout [if provides_rgb env
                           then OInfo ("PointXYZRGB mode enabled." +:+ newline)
                           else OInfo ("PointXYZ mode enabled." +:+ newline)]
                          (world0 EmptyString)) with
       | Some (device, w) =>
           Some (mkExit 0 (cout w) [EmptyString; device]
                        (Some (if provides_rgb env then PointXYZRGB else PointXYZ, w)))
       | None => None
       end.
Proof.
  unfold main.
  destruct (String.eqb _ "--help" || String.eqb _ "-h")%bool; [left; reflexivity|].
  right. destruct (provides_rgb env); reflexivity.
Qed.

(** X16: when [main] runs the viewer, what it has written at exit is the
    "mode enabled" message, chosen by whether the grabber offers the colour
    callback, followed by the frame-rate lines of the session and nothing
    before it; the instantiation that ran is the one the message names,
    its device id is still the empty string, and it showed no more meshes
    than the session delivered frames. *)
Theorem main_output argv (env : Env Frame Double) (e : Exit Frame Mesh Double) :
  main argv env = Some e ->
  status e = 0 ->
  exists w (text : list (Out Double)),
    ran e = Some (if provides_rgb env then PointXYZRGB else PointXYZ, w)
    /\ stdout e
       = OInfo ((if provides_rgb env then "PointXYZRGB mode enabled."
                 else "PointXYZ mode enabled.") +:+ newline) :: text
    /\ Z.of_nat (endls text)
       = Z.of_nat (length (captured (session env))) / 100
         + Z.of_nat (length (shown w)) / 100
    /\ device_id_ (self w) = EmptyString
    /\ (length (shown w) <= length (captured (session env)))%nat.
Proof.
  intros Hmain Hstatus.
  destruct (main_cases argv env) as [E|E]; rewrite E in Hmain.
  { injection Hmain as <-. discriminate Hstatus. }
  unfold run in Hmain.
  destruct (run_events (session env) _) as [w|] eqn:Hrun; [|discriminate].
  injection Hmain as <-. cbn [ran stdout].
  pose proof (fun Hc Hv => output_along _ _ _ Hc Hv Hrun) as Hout.
  destruct Hout as (text & k & H1 & H2 & H3); [cbn; lia | cbn; lia |].
  pose proof (renders_bounded_along _ _ _ Hrun) as Hb.
  pose proof (device_id_along _ _ _ Hrun) as Hd.
  cbn [with_cout world0 cout shown length fps_computation fps_visualization
       count app self OpenNIFastMesh_new new_cloud_ device_id_ Nat.b2n] in *.
  rewrite Nat.add_0_r in H2.
  exists w, text. rewrite H1, H2, H3, Hd.
  split; [reflexivity|].
  split; [destruct (provides_rgb env); reflexivity|].
  split; [reflexivity|]. split; [reflexivity|]. lia.
Qed.

(** ** The two threads: how much is shown *)

Lemma step_shown_bound a (c : K) l c' (n : nat) :
  Inv c ->
  (length (shown (world c)) + owed c + in_flight (cpc c) <= n)%nat ->
  step a c = Stepped l c' ->
  (length (shown (world c')) + owed c' + in_flight (cpc c') <= n + enters a c)%nat.
Proof.
  destruct c as [[[d cl vs ms fl] vz f1 f2 co sl sh] mtx cp vp].
  intros [Hm He Hr _ Hc Hz _ _]. unfold owner in Hm. unfold owed, enters.
  cbn [world mtx_ cpc vpc self new_cloud_ shown] in *. intros Hb.
  destruct a as [now f|now]; cbn [step].
  - unfold capture_step. cbn [world mtx_ cpc vpc self mesh_ new_cloud_].
    destruct cp.
    all: try (destruct mtx; [discriminate|]).
    all: try (destruct (FPS_CALC _ _ _) as [fps text]).
    all: try (destruct ms as [m0|]; [|discriminate]).
    all: intros E; injection E as <- <-; cbn in *.
    all: destruct fl, (before_show vp); cbn in *; try lia.
    all: try (specialize (Hr eq_refl); discriminate Hr).
  - unfold viz_step. cbn [world mtx_ cpc vpc self mesh_ new_cloud_].
    destruct vp.
    all: try (destruct mtx; [discriminate|]).
    all: try (destruct (FPS_CALC _ _ _) as [fps text]).
    all: try (destruct ms as [m0|]; [|discriminate]).
    all: intros E; injection E as <- <-; cbn in *.
    all: destruct fl; cbn in *; try lia.
    all: try (specialize (Hc eq_refl); discriminate Hc).
    all: try (specialize (Hz eq_refl); discriminate Hz).
    all: destruct cp; cbn in *; lia.
Qed.

Lemma exec_shown_bound (sched : list (Action Frame Double)) : forall (c c' : K) (n : nat),
  Inv c ->
  (length (shown (world c)) + owed c + in_flight (cpc c) <= n)%nat ->
  exec sched c = Some c' ->
  (length (shown (world c')) + owed c' + in_flight (cpc c') <= n + entries sched c)%nat.
Proof.
  induction sched as [|a sched IH]; intros c c' n HI Hb; cbn [exec entries].
  - intros [= <-]. lia.
  - destruct (step a c) as [l c1| |] eqn:E; [| |discriminate].
    + intros Hrun. rewrite Nat.add_assoc.
      apply (IH c1 c' _ (step_inv a c l c1 HI E)
                (step_shown_bound a c l c1 n HI Hb E) Hrun).
    + apply (IH c c' n HI Hb).
Qed.

Lemma entries_le_offered (sched : list (Action Frame Double)) : forall (c : K),
  (entries sched c <= length (offered sched))%nat.
Proof.
  induction sched as [|a sched IH]; intros c; cbn [entries offered length]; [lia|].
  destruct (step a c) as [l c1| |].
  - specialize (IH c1). unfold enters.
    destruct a, (cpc c); cbn [offered length]; lia.
  - specialize (IH c). destruct a; cbn [offered length]; lia.
  - lia.
Qed.

Lemma entries_passed (sched : list (Action Frame Double)) : forall (c : K),
  entries sched c = length (passed sched c).
Proof.
  induction sched as [|a sched IH]; intros c; cbn [entries passed length]; [reflexivity|].
  destruct (step a c) as [l c1| |]; [|apply IH | reflexivity].
  rewrite length_app, IH. unfold enters, taken.
  destruct a, (cpc c); reflexivity.
Qed.

(** X17: on every schedule of the two threads, the number of meshes handed
    to the viewer, plus one if [new_cloud_] is true and the current call of
    [viz_cb], if any, has not passed line 121, plus one if a call of
    [cloud_cb] is under way that has not yet set [new_cloud_] (it stands
    between lines 83 and 99), never exceeds the number of clouds passed to
    [cloud_cb]: however the threads interleave, the viewer is never given
    more meshes than [cloud_cb] was given clouds. *)
Theorem shown_bounded_by_deliveries d (sched : list (Action Frame Double)) (c : K) :
  exec sched (conc0 d) = Some c ->
  (length (shown (world c)) + owed c + in_flight (cpc c)
   <= length (passed sched (conc0 d)))%nat
  /\ (length (shown (world c)) <= length (passed sched (conc0 d)))%nat.
Proof.
  intros Hrun.
  assert (H : (length (shown (world c)) + owed c + in_flight (cpc c)
               <= length (passed sched (conc0 d)))%nat).
  { rewrite <- entries_passed.
    apply (exec_shown_bound sched (conc0 d) c 0 (Inv_conc0 d)); [cbn; lia | exact Hrun]. }
  split; [exact H | lia].
Qed.

End Properties.

(** * The theorems at concrete runs

    All of them in the [provenance] instance: clouds are numbers, clock
    readings are rationals, and a mesh is the triangulation object it was
    reconstructed from. *)

Local Abbreviation PMesh := (option (OrganizedFastMesh nat)).
Local Abbreviation PWorld := (World nat PMesh Q).
Local Abbreviation PConc := (Conc nat PMesh Q).

Local Open Scope string_scope.

(** C1, the claim as stated fails: frames 1, 2 and 3 are captured before any
    render; the render that follows hands the viewer the mesh reconstructed
    from frame 1, which is what "surface" then shows, and that is not the
    mesh of frame 3. *)
Lemma burst_then_render_not_latest :
  exists w : PWorld,
    run_events [Capture 1%Q 1%nat; Capture 2%Q 2%nat; Capture 3%Q 3%nat; Render 4%Q]
               (world0 EmptyString) = Some w
    /\ shown w = [reconstruct (configured_ofm 1%nat)]
    /\ polymesh <$> (viz w !! "surface") = Some (reconstruct (configured_ofm 1%nat))
    /\ polymesh <$> (viz w !! "surface") <> Some (reconstruct (configured_ofm 3%nat)).
Proof.
  eexists. split; [vm_compute; reflexivity|].
  split; [reflexivity|]. split; [vm_compute; reflexivity|].
  vm_compute. discriminate.
Qed.

Lemma burst_then_render_shows_first_witness :
  exists w2 : PWorld,
    run_events (captures [(1%Q, 1%nat); (2%Q, 2%nat); (3%Q, 3%nat)] ++ [Render 4%Q])
               (world0 EmptyString) = Some w2
    /\ shown w2 = [reconstruct (configured_ofm 1%nat)].
Proof.
  destruct (burst_then_render_shows_first (world0 EmptyString) 1%Q 1%nat
              [(2%Q, 2%nat); (3%Q, 3%nat)] 4%Q eq_refl)
    as (w1 & w2 & _ & _ & _ & Hrun & Hshown & _).
  exists w2. split; [exact Hrun | exact Hshown].
Defined.

Lemma cloud_cb_contract_witness :
  capture_steps 9 0%Q 7%nat (conc0 EmptyString : PConc)
  = Some (mkConc (cloud_cb 0%Q 7%nat (world0 EmptyString)) None CIdle V105)
  /\ mesh_ (self (cloud_cb 0%Q 7%nat (world0 EmptyString : PWorld)))
     = Some (reconstruct (mkOFM (3 # 2) 1 TRIANGLE_ADAPTIVE_CUT (Some 7%nat))).
Proof.
  destruct (cloud_cb_contract 0%Q 7%nat (conc0 EmptyString : PConc) eq_refl eq_refl)
    as (Hrun & _ & Hmesh & _).
  split; [exact Hrun | exact Hmesh].
Defined.

(** C3, the claim as stated fails: frames 1 and 2 are captured, one render
    follows, then frame 3 is captured. The render between the captures of
    frames 2 and 3 finds frame 2 in the slot but hands the viewer the mesh
    of frame 1, not the mesh of the frame captured before it. *)
Lemma render_between_captures_not_own_mesh :
  exists w1 w2 w3 : PWorld,
    run_events [Capture 1%Q 1%nat; Capture 2%Q 2%nat] (world0 EmptyString) = Some w1
    /\ cloud_ (self w1) = Some 2%nat
    /\ run_events [Render 3%Q] w1 = Some w2
    /\ run_events [Capture 4%Q 3%nat] w2 = Some w3
    /\ shown w2 = [reconstruct (configured_ofm 1%nat)]
    /\ shown w3 = [reconstruct (configured_ofm 1%nat)]
    /\ reconstruct (configured_ofm 1%nat) <> (reconstruct (configured_ofm 2%nat) : PMesh).
Proof.
  do 3 eexists. split; [vm_compute; reflexivity|].
  split; [reflexivity|]. split; [vm_compute; reflexivity|].
  split; [vm_compute; reflexivity|].
  split; [reflexivity|]. split; [reflexivity|]. discriminate.
Qed.

Lemma render_between_captures_witness :
  exists w2 : PWorld,
    viz_cb 2%Q (cloud_cb 1%Q 1%nat (world0 EmptyString)) = Some w2
    /\ shown w2 = [reconstruct (configured_ofm 1%nat)]
    /\ new_cloud_ (self w2) = false.
Proof.
  destruct (render_between_captures (world0 EmptyString : PWorld) 1%Q 1%nat 2%Q 3%Q 2%nat
              (pending_has_mesh_world0 EmptyString))
    as (m & w2 & _ & _ & Hr & _ & Hflag & Hshown & _ & Hfresh & _).
  exists w2. split; [exact Hr|]. split; [|exact Hflag].
  rewrite Hshown, (Hfresh eq_refl). reflexivity.
Defined.

Lemma pending_flag_means_pair_witness :
  exec (repeat (ACapture 0%Q 1%nat) 9) (conc0 EmptyString : PConc)
  = Some (mkConc (cloud_cb 0%Q 1%nat (world0 EmptyString)) None CIdle V105)
  /\ is_Some (cloud_ (self (cloud_cb 0%Q 1%nat (world0 EmptyString : PWorld))))
  /\ reconstructed (mesh_ (self (cloud_cb 0%Q 1%nat (world0 EmptyString : PWorld)))).
Proof.
  assert (E : exec (repeat (ACapture 0%Q 1%nat) 9) (conc0 EmptyString : PConc)
              = Some (mkConc (cloud_cb 0%Q 1%nat (world0 EmptyString)) None CIdle V105))
    by (vm_compute; reflexivity).
  split; [exact E|].
  refine (proj1 (pending_flag_means_pair
                   (mkConc (cloud_cb 0%Q 1%nat (world0 EmptyString)) None CIdle V105 : PConc) _)
                eq_refl eq_refl).
  exists EmptyString, (repeat (ACapture 0%Q 1%nat) 9). exact E.
Defined.

(** C5, the claim as stated fails: frame 2 arrives while the pair of frame 1
    is still pending, and it is not dropped: it becomes the stored frame,
    and frame 1 is the one that is gone. *)
Lemma capture_while_pending_not_dropped :
  new_cloud_ (self (cloud_cb 1%Q 1%nat (world0 EmptyString : PWorld))) = true
  /\ cloud_ (self (cloud_cb 1%Q 1%nat (world0 EmptyString : PWorld))) = Some 1%nat
  /\ cloud_ (self (cloud_cb 2%Q 2%nat (cloud_cb 1%Q 1%nat (world0 EmptyString : PWorld))))
     = Some 2%nat
  /\ self (cloud_cb 2%Q 2%nat (cloud_cb 1%Q 1%nat (world0 EmptyString : PWorld)))
     <> self (cloud_cb 1%Q 1%nat (world0 EmptyString : PWorld)).
Proof.
  split; [reflexivity|]. split; [reflexivity|]. split; [reflexivity|].
  vm_compute. discriminate.
Qed.

Lemma capture_while_pending_overwrites_frame_witness :
  self (cloud_cb 2%Q 2%nat (cloud_cb 1%Q 1%nat (world0 EmptyString : PWorld)))
  = set_cloud (Some 2%nat) (self (cloud_cb 1%Q 1%nat (world0 EmptyString : PWorld))).
Proof.
  exact (proj1 (capture_while_pending_overwrites_frame
                  (cloud_cb 1%Q 1%nat (world0 EmptyString : PWorld)) 2%Q 2%nat
                  (reconstruct (configured_ofm 1%nat)) eq_refl eq_refl)).
Defined.

Lemma idle_render_changes_nothing_witness :
  exists w' : PWorld,
    viz_cb 0%Q (world0 EmptyString) = Some w'
    /\ self w' = self (world0 EmptyString : PWorld)
    /\ viz w' = viz (world0 EmptyString : PWorld).
Proof.
  destruct (idle_render_changes_nothing 0%Q (world0 EmptyString : PWorld) eq_refl)
    as (w' & Hr & Hself & Hviz & _).
  exists w'. auto.
Defined.

Lemma main_command_line_witness :
  main ["openni_fast_mesh"; "-h"; "#1"]
       (mkEnv [mkDevice "PrimeSense" "Sensor" 1 4 "A1"] true [] : Env nat Q)
  = Some (mkExit 1
      [OStr "usage: "; OStr "openni_fast_mesh";
       OStr (" <device_id> <options>"
             +:+ String (Ascii.ascii_of_nat 10) (String (Ascii.ascii_of_nat 10) EmptyString));
       OStr "Device: "; OUnsigned 1;
       OStr ", vendor: "; OStr "PrimeSense";
       OStr ", product: "; OStr "Sensor";
       OStr ", connected: "; OInt 1; OStr " @ "; OInt 4;
       OStr ", serial number: '"; OStr "A1"; OStr "'"; OEndl;
       OStr "device_id may be #1, #2, ... for the first second etc device in the list or";
       OEndl;
       OStr "                 bus@address for the device connected to a specific usb-bus / address combination (works only in Linux) or";
       OEndl;
       OStr "                 <serial-number> (only in Linux and for devices which provide serial numbers)";
       OEndl]
      [] (None : option (PointType * PWorld))).
Proof.
  exact (proj1 (main_command_line "openni_fast_mesh" "-h" ["#1"]
                  (mkEnv [mkDevice "PrimeSense" "Sensor" 1 4 "A1"] true []
                   : Env nat Q)) (or_intror eq_refl)).
Defined.

Lemma hundred_calls_one_report_witness :
  fps_calls "computation" (repeat 1%Q 99 ++ [3%Q])%list (mkFps 0 None)
  = (mkFps 0 (Some 3%Q),
     [OStr "Average framerate("; OStr "computation"; OStr "): ";
      ODouble (Qdiv (inject_Z 100) (Qminus 3 1)); OStr " Hz"; OEndl])
  /\ Qeq (Qdiv (inject_Z 100) (Qminus 3 1)) (inject_Z 50).
Proof.
  split; [|reflexivity].
  refine (proj1 (proj2 (proj2
    (hundred_calls_one_report "computation" (mkFps 0 None) (repeat 1%Q 99) 3%Q []
       (world0 EmptyString : PWorld) 0%Q 0%nat _ eq_refl eq_refl)))).
  simpl. lia.
Defined.

(** C9, the claim as stated fails: the first step of the program's render
    handler reads [new_cloud_] (line 105) while nobody holds the mutex. *)
Lemma entry_test_without_mutex :
  reachable (conc0 EmptyString : PConc)
  /\ step (AViz 0%Q) (conc0 EmptyString : PConc)
     = Stepped (mkLabel [Rd F_new_cloud] false) (mkConc (world0 EmptyString) None CIdle V107)
  /\ mtx_ (conc0 EmptyString : PConc) = None
  /\ mtx_ (conc0 EmptyString : PConc) <> Some (actor (AViz 0%Q : Action nat Q)).
Proof.
  split; [exists EmptyString, []; reflexivity|].
  split; [reflexivity|]. split; [reflexivity | discriminate].
Qed.

(** C10, where the program departs from it: the swap of line 111 is made
    before the mutex is taken at line 114. Frame 1 is captured; [viz_cb]
    passes its test and swaps [cloud_] out; a whole [cloud_cb] for frame 2
    runs before [viz_cb] takes the mutex; [viz_cb] then renders and returns.
    This render consumed a pending pair (the mesh of frame 1 is shown) and
    PendingFlag is false after it, but the frame slot is not empty: frame 2
    sits in [cloud_]. *)
Lemma capture_between_swap_and_lock :
  exists c : PConc,
    exec (repeat (ACapture 1%Q 1%nat) 9 ++ [AViz 2%Q; AViz 2%Q]
          ++ repeat (ACapture 3%Q 2%nat) 6 ++ repeat (AViz 2%Q) 7) (conc0 EmptyString)
    = Some c
    /\ cpc c = CIdle /\ vpc c = V105 /\ mtx_ c = None
    /\ shown (world c) = [reconstruct (configured_ofm 1%nat)]
    /\ new_cloud_ (self (world c)) = false
    /\ cloud_ (self (world c)) = Some 2%nat.
Proof.
  eexists. split; [vm_compute; reflexivity|]. cbn. auto 10.
Qed.

Lemma lock_discipline_witness :
  mtx_ (conc0 EmptyString : PConc) <> Some VisualizationThread.
Proof.
  refine (proj1 (proj2 (proj2
    (lock_discipline (conc0 EmptyString : PConc) (AViz 0%Q) (mkLabel [Rd F_new_cloud] false)
       (mkConc (world0 EmptyString) None CIdle V107) _ eq_refl))) eq_refl eq_refl).
  exists EmptyString, []. reflexivity.
Defined.

Lemma consume_empties_slot_witness :
  exists w' : PWorld,
    viz_cb 2%Q (cloud_cb 1%Q 1%nat (world0 EmptyString)) = Some w'
    /\ cloud_ (self w') = None
    /\ new_cloud_ (self w') = false.
Proof.
  destruct (proj1 (@consume_empties_slot nat PMesh Q provenance) EmptyString
              [Capture 1%Q 1%nat] (cloud_cb 1%Q 1%nat (world0 EmptyString)) 2%Q
              eq_refl eq_refl)
    as (w' & Hr & Hcloud & Hflag & _).
  exists w'. auto.
Defined.

(** * The further properties at concrete runs *)

Lemma fps_calls_counts_witness :
  count (fst (fps_calls "computation" (repeat 1%Q 250) (mkFps 0 None))) = 50
  /\ Z.of_nat (endls (snd (fps_calls "computation" (repeat 1%Q 250) (mkFps 0 None)))) = 2.
Proof.
  exact (fps_calls_counts (ext := provenance) "computation" (repeat 1%Q 250)
           (mkFps 0 None) (conj (Z.le_refl 0) eq_refl)).
Defined.

Lemma usage_device_block_witness :
  take 20 (drop 23 (usage (Double := Q) ["openni_fast_mesh"]
                      [mkDevice "PrimeSense" "Sensor" 1 4 "A1";
                       mkDevice "ASUS" "Xtion" 2 7 "B2"]))
  = usage_device 1 (mkDevice "ASUS" "Xtion" 2 7 "B2").
Proof.
  exact (proj1 (usage_device_block (Double := Q) ["openni_fast_mesh"]
                  [mkDevice "PrimeSense" "Sensor" 1 4 "A1";
                   mkDevice "ASUS" "Xtion" 2 7 "B2"]
                  1 (mkDevice "ASUS" "Xtion" 2 7 "B2") eq_refl eq_refl)).
Defined.

Lemma usage_lines_witness :
  drop 3 (usage (Double := Q) ["openni_fast_mesh"] [])
  = [OStr "No devices connected."; OEndl].
Proof.
  exact (proj2 (proj2 (usage_lines (Double := Q) ["openni_fast_mesh"] [])) eq_refl).
Defined.

Lemma counters_after_run_witness :
  exists w : PWorld,
    run_events [Capture 1%Q 1%nat; Render 2%Q; Render 3%Q; Capture 4%Q 2%nat]
               (world0 EmptyString) = Some w
    /\ count (fps_computation w) = 2
    /\ count (fps_visualization w) = 1.
Proof.
  eexists. split; [vm_compute; reflexivity|].
  exact (counters_after_run EmptyString
           [Capture 1%Q 1%nat; Render 2%Q; Render 3%Q; Capture 4%Q 2%nat] _ eq_refl).
Defined.

Lemma renders_bounded_witness :
  exists w : PWorld,
    run_events [Capture 1%Q 1%nat; Render 2%Q; Render 3%Q; Capture 4%Q 2%nat]
               (world0 EmptyString) = Some w
    /\ (length (shown w) + Nat.b2n (new_cloud_ (self w)) <= 2)%nat.
Proof.
  eexists. split; [vm_compute; reflexivity|].
  exact (renders_bounded EmptyString
           [Capture 1%Q 1%nat; Render 2%Q; Render 3%Q; Capture 4%Q 2%nat] _ eq_refl).
Defined.

Lemma slot_holds_latest_frame_witness :
  exists w : PWorld,
    run_events [Capture 1%Q 1%nat; Capture 2%Q 2%nat; Capture 3%Q 3%nat]
               (world0 EmptyString) = Some w
    /\ cloud_ (self w) = Some 3%nat.
Proof.
  eexists. split; [vm_compute; reflexivity|].
  exact (slot_holds_latest_frame EmptyString
           [Capture 1%Q 1%nat; Capture 2%Q 2%nat; Capture 3%Q 3%nat] _ eq_refl).
Defined.

Lemma viewer_holds_last_mesh_witness :
  exists w : PWorld,
    run_events [Capture 1%Q 1%nat; Render 2%Q; Capture 3%Q 2%nat; Render 4%Q]
               (world0 EmptyString) = Some w
    /\ viz w = {["surface" := mkShape (reconstruct (configured_ofm 2%nat))
                                PCL_VISUALIZER_REPRESENTATION_WIREFRAME]}.
Proof.
  eexists. split; [vm_compute; reflexivity|].
  exact (viewer_holds_last_mesh EmptyString
           [Capture 1%Q 1%nat; Render 2%Q; Capture 3%Q 2%nat; Render 4%Q] _ eq_refl).
Defined.

Lemma shown_meshes_from_delivered_frames_witness :
  exists c : PConc,
    exec (ACapture 1%Q 1%nat :: repeat (ACapture 1%Q 2%nat) 8 ++ repeat (AViz 2%Q) 9)%list
         (conc0 EmptyString)
    = Some c
    /\ passed (ACapture 1%Q 1%nat :: repeat (ACapture 1%Q 2%nat) 8
               ++ repeat (AViz 2%Q) 9)%list (conc0 EmptyString : PConc)
       = [1%nat]
    /\ forall m, In m (shown (world c)) ->
         exists g,
           In g (passed (ACapture 1%Q 1%nat :: repeat (ACapture 1%Q 2%nat) 8
                         ++ repeat (AViz 2%Q) 9)%list (conc0 EmptyString : PConc))
           /\ m = reconstruct (configured_ofm g).
Proof.
  eexists. split; [vm_compute; reflexivity|].
  split; [vm_compute; reflexivity|].
  refine (proj1 (shown_meshes_from_delivered_frames EmptyString
                   (ACapture 1%Q 1%nat :: repeat (ACapture 1%Q 2%nat) 8
                    ++ repeat (AViz 2%Q) 9)%list _ _)).
  vm_compute. reflexivity.
Defined.

Lemma mutual_exclusion_witness :
  mtx_ (mkConc (world0 EmptyString) (Some CaptureThread) (C83 1%nat) V105 : PConc)
  = Some CaptureThread
  <-> capture_holds (C83 1%nat) = true.
Proof.
  refine (proj1 (mutual_exclusion
            (mkConc (world0 EmptyString) (Some CaptureThread) (C83 1%nat) V105 : PConc) _)).
  exists EmptyString, [ACapture 0%Q 1%nat]. reflexivity.
Defined.

Lemma no_deadlock_witness :
  exists l c',
    capture_step 3%Q 2%nat
      (mkConc (set_self (set_cloud None (self (cloud_cb 1%Q 1%nat (world0 EmptyString))))
                        (cloud_cb 1%Q 1%nat (world0 EmptyString)))
              (Some CaptureThread) (C83 2%nat) (V114 (Some 1%nat)) : PConc)
    = Stepped l c'.
Proof.
  refine (proj2 (no_deadlock
            (mkConc (set_self (set_cloud None
                                 (self (cloud_cb 1%Q 1%nat (world0 EmptyString))))
                              (cloud_cb 1%Q 1%nat (world0 EmptyString)))
                    (Some CaptureThread) (C83 2%nat) (V114 (Some 1%nat)) : PConc)
            3%Q 2%Q 2%nat _) eq_refl).
  exists EmptyString,
    (repeat (ACapture 1%Q 1%nat) 9 ++ [AViz 2%Q; AViz 2%Q; ACapture 3%Q 2%nat])%list.
  vm_compute. reflexivity.
Defined.

Lemma capture_releases_witness :
  exists n c',
    (n <= 8)%nat
    /\ capture_steps n 0%Q 1%nat
         (mkConc (world0 EmptyString) (Some CaptureThread) (C83 1%nat) V105 : PConc)
       = Some c'
    /\ mtx_ c' = None.
Proof.
  destruct (capture_releases
              (mkConc (world0 EmptyString) (Some CaptureThread) (C83 1%nat) V105 : PConc)
              0%Q 1%nat)
    as (n & c' & Hn & Hrun & Hmtx & _).
  - exists EmptyString, [ACapture 0%Q 1%nat]. reflexivity.
  - reflexivity.
  - exists n, c'. auto.
Defined.

Lemma viz_releases_witness :
  exists n c',
    (n <= 6)%nat
    /\ viz_steps n 2%Q
         (mkConc (set_self (set_cloud None
                              (self (cloud_cb 1%Q 1%nat (world0 EmptyString))))
                           (cloud_cb 1%Q 1%nat (world0 EmptyString)))
                 (Some VisualizationThread) CIdle (V115 (Some 1%nat)) : PConc)
       = Some c'
    /\ new_cloud_ (self (world c')) = false.
Proof.
  destruct (viz_releases
              (mkConc (set_self (set_cloud None
                                   (self (cloud_cb 1%Q 1%nat (world0 EmptyString))))
                                (cloud_cb 1%Q 1%nat (world0 EmptyString)))
                      (Some VisualizationThread) CIdle (V115 (Some 1%nat)) : PConc)
              2%Q)
    as (n & c' & Hn & Hrun & _ & _ & _ & Hflag & _).
  - exists EmptyString, (repeat (ACapture 1%Q 1%nat) 9 ++ repeat (AViz 2%Q) 3)%list.
    vm_compute. reflexivity.
  - reflexivity.
  - exists n, c'. auto.
Defined.

Lemma vertices_never_filled_witness :
  vertices_ (self (cloud_cb 1%Q 1%nat (world0 EmptyString : PWorld))) = None
  \/ vertices_ (self (cloud_cb 1%Q 1%nat (world0 EmptyString : PWorld))) = Some [].
Proof.
  refine (vertices_never_filled
            (mkConc (cloud_cb 1%Q 1%nat (world0 EmptyString)) None CIdle V105 : PConc) _).
  exists EmptyString, (repeat (ACapture 1%Q 1%nat) 9). vm_compute. reflexivity.
Defined.

Lemma threads_write_their_own_witness :
  mesh_ (self (world0 EmptyString : PWorld)) = mesh_ (self (world0 EmptyString : PWorld))
  /\ cpc (mkConc (world0 EmptyString) None CIdle V107 : PConc) = CIdle.
Proof.
  destruct (threads_write_their_own (conc0 EmptyString : PConc) (AViz 0%Q)
              (mkLabel [Rd F_new_cloud] false)
              (mkConc (world0 EmptyString) None CIdle V107) eq_refl)
    as (Hmesh & _ & _ & Hcpc & _).
  split; [exact Hmesh | exact Hcpc].
Defined.

Lemma output_lines_witness :
  exists w : PWorld,
    run_events (captures (repeat (1%Q, 1%nat) 100)) (world0 EmptyString) = Some w
    /\ Z.of_nat (endls (cout w)) = 1.
Proof.
  destruct (run_events (captures (repeat (1%Q, 1%nat) 100))
                       (world0 EmptyString : PWorld)) as [w|] eqn:E;
    [|vm_compute in E; discriminate E].
  exists w. split; [reflexivity|].
  rewrite (output_lines EmptyString (captures (repeat (1%Q, 1%nat) 100)) w E).
  assert (Hs : shown w = []) by (vm_compute in E; injection E as <-; reflexivity).
  rewrite Hs. reflexivity.
Defined.

Lemma main_output_witness :
  exists (e : Exit nat PMesh Q) w text,
    main ["openni_fast_mesh"; "#1"]
         (mkEnv [] false [Capture 1%Q 1%nat; Render 2%Q]) = Some e
    /\ ran e = Some (PointXYZ, w)
    /\ stdout e = OInfo ("PointXYZ mode enabled." +:+ newline) :: text.
Proof.
  destruct (main ["openni_fast_mesh"; "#1"]
                 (mkEnv [] false [Capture 1%Q 1%nat; Render 2%Q] : Env nat Q))
    as [e|] eqn:E; [|vm_compute in E; discriminate E].
  assert (Hst : status e = 0) by (vm_compute in E; injection E as <-; reflexivity).
  destruct (main_output _ _ e E Hst) as (w & text & Hran & Hout & _).
  exists e, w, text. auto.
Defined.

Lemma shown_bounded_by_deliveries_witness :
  exists c : PConc,
    exec (repeat (ACapture 1%Q 1%nat) 9 ++ repeat (AViz 2%Q) 9)%list (conc0 EmptyString)
    = Some c
    /\ (length (shown (world c))
        <= length (passed (repeat (ACapture 1%Q 1%nat) 9 ++ repeat (AViz 2%Q) 9)%list
                          (conc0 EmptyString : PConc)))%nat.
Proof.
  eexists. split; [vm_compute; reflexivity|].
  refine (proj2 (shown_bounded_by_deliveries EmptyString
                   (repeat (ACapture 1%Q 1%nat) 9 ++ repeat (AViz 2%Q) 9)%list _ _)).
  vm_compute. reflexivity.
Defined.
